(** * AeroPulse: the time index of the map screens

    The repository holds four near-identical React Native screens
    ([src/app/index.tsx] and three later revisions of it).  Each screen
    fetches the list of forecast timestamps of a layer ([fetchTimes]),
    groups the timestamps by calendar date in a [useEffect] over
    [availableTimes], and colours forecast polygons ([getPolygonColor]).

    The screens are embedded as pure state transformers.  The JavaScript
    built-ins they rely on ([String.prototype.substring], [parseInt],
    [Array.prototype.sort], property lookup and [Object.keys] on an ordinary
    object) are modelled in [Module JS]; the screens themselves follow in
    [Module Index] (index.tsx, whose grouping and fetch code is shared by the
    revision with the animation controls), [Module Part000] and
    [Module Part002] (the two revisions that sort the index). *)

From Stdlib Require Import List String Ascii Bool Arith ZArith NArith Lia.
From Stdlib Require Import Permutation Sorted.
From Stdlib Require Import Floats.SpecFloat.
Import ListNotations.

Local Open Scope string_scope.
Local Open Scope list_scope.

(** ** Exceptions *)

Inductive Exception : Type :=
| TypeError (message : string)
| NetworkFailure (message : string).

Inductive result (A : Type) : Type :=
| Ok (a : A)
| Throw (e : Exception).

Arguments Ok {A} a.
Arguments Throw {A} e.

Definition bind {A B : Type} (r : result A) (k : A -> result B) : result B :=
  match r with
  | Ok a => k a
  | Throw e => Throw e
  end.

Notation "x <- r ;; k" := (bind r (fun x => k))
  (at level 61, r at next level, right associativity).

(** ** The JavaScript built-ins used by the screens *)

Module JS.

(** [s.substring(start, end)]: both indices are clamped to the length of
    [s] and swapped when [start > end]; it never throws. *)
Definition substring (start stop : nat) (s : string) : string :=
  let lo := Nat.min start stop in
  let hi := Nat.max start stop in
  String.substring lo (hi - lo) s.

(** [s.substring(start)]: up to the end of [s]. *)
Definition substringFrom (start : nat) (s : string) : string :=
  substring start (String.length s) s.

Definition isDigit (c : ascii) : bool :=
  (48 <=? nat_of_ascii c)%nat && (nat_of_ascii c <=? 57)%nat.

Definition digitValue (c : ascii) : Z := Z.of_nat (nat_of_ascii c - 48).

Fixpoint allDigits (s : string) : bool :=
  match s with
  | EmptyString => true
  | String c s' => isDigit c && allDigits s'
  end.

(** The value of a hexadecimal digit, for the "0x" form of [parseInt]. *)
Definition hexValue (c : ascii) : option Z :=
  let n := nat_of_ascii c in
  if isDigit c then Some (digitValue c)
  else if (97 <=? n)%nat && (n <=? 102)%nat then Some (Z.of_nat (n - 87))
  else if (65 <=? n)%nat && (n <=? 70)%nat then Some (Z.of_nat (n - 55))
  else None.

Definition digitIn (radix : Z) (c : ascii) : option Z :=
  if (radix =? 16)%Z then hexValue c
  else if isDigit c then Some (digitValue c) else None.

(** The longest prefix of digits, read in [radix]; [acc] is [None] as long
    as no digit has been read. *)
Fixpoint readDigits (radix : Z) (acc : option Z) (s : string) : option Z :=
  match s with
  | EmptyString => acc
  | String c s' =>
      match digitIn radix c with
      | Some d =>
          readDigits radix
            (Some (radix * match acc with Some a => a | None => 0 end + d)%Z) s'
      | None => acc
      end
  end.

Definition isWhiteSpace (c : ascii) : bool :=
  let n := nat_of_ascii c in
  ((9 <=? n)%nat && (n <=? 13)%nat) || (n =? 32)%nat.

Fixpoint trimStart (s : string) : string :=
  match s with
  | String c s' => if isWhiteSpace c then trimStart s' else s
  | EmptyString => s
  end.

(** [parseInt(s)] without a radix: leading white space and one sign are
    skipped, "0x" or "0X" selects base 16, and the digits that follow are
    read as far as they go.  [None] stands for NaN.  White space is the
    ASCII part of what the language skips.  The integers the screens parse
    from valid tokens have at most fifteen digits, so the double that
    JavaScript returns is the integer itself. *)
Definition parseInt (s : string) : option Z :=
  let s1 := trimStart s in
  let '(negative, s2) :=
    match s1 with
    | String "-" r => (true, r)
    | String "+" r => (false, r)
    | _ => (false, s1)
    end in
  let magnitude :=
    match s2 with
    | String "0" (String "x" r) => readDigits 16 None r
    | String "0" (String "X" r) => readDigits 16 None r
    | _ => readDigits 10 None s2
    end in
  match magnitude with
  | Some m => Some (if negative then (- m)%Z else m)
  | None => None
  end.

(** [a - b] on two results of [parseInt]; NaN is contagious. *)
Definition minus (a b : option Z) : option Z :=
  match a, b with
  | Some x, Some y => Some (x - y)%Z
  | _, _ => None
  end.

(** *** Array.prototype.sort

    [SortCompare] is the comparison the language specification builds from
    [comparefn]: a NaN result counts as [+0].  The sort is stable, so with
    a consistent [comparefn] its result is the one computed below by
    insertion from the right. *)
Section Sort.
Context {A : Type}.
Variable comparefn : A -> A -> option Z.

Definition SortCompare (x y : A) : Z :=
  match comparefn x y with
  | Some v => v
  | None => 0%Z
  end.

Fixpoint insert (x : A) (l : list A) : list A :=
  match l with
  | [] => [x]
  | y :: l' =>
      if (SortCompare x y <=? 0)%Z then x :: y :: l' else y :: insert x l'
  end.

Fixpoint sort (l : list A) : list A :=
  match l with
  | [] => []
  | x :: l' => insert x (sort l')
  end.
End Sort.

(** *** Ordinary objects used as string-keyed maps

    An object is the list of its own properties in creation order. *)
Definition Object (V : Type) : Type := list (string * V).

Definition empty {V : Type} : Object V := [].

Fixpoint getOwn {V : Type} (o : Object V) (k : string) : option V :=
  match o with
  | [] => None
  | (k', v) :: o' => if String.eqb k' k then Some v else getOwn o' k
  end.

(** [o[k] = v]: an existing property keeps its place, a new one is created
    last. *)
Fixpoint set {V : Type} (o : Object V) (k : string) (v : V) : Object V :=
  match o with
  | [] => [(k, v)]
  | (k', v') :: o' =>
      if String.eqb k' k then (k', v) :: o' else (k', v') :: set o' k v
  end.

(** The property names every object literal inherits from
    [Object.prototype]. *)
Definition ObjectPrototype : list string :=
  [ "constructor"; "__defineGetter__"; "__defineSetter__"; "hasOwnProperty";
    "__lookupGetter__"; "__lookupSetter__"; "isPrototypeOf";
    "propertyIsEnumerable"; "toString"; "valueOf"; "__proto__";
    "toLocaleString" ].

Definition inherited (k : string) : bool :=
  existsb (String.eqb k) ObjectPrototype.

Inductive Lookup (V : Type) : Type :=
| Own (v : V)
| Inherited
| Undefined.

Arguments Own {V} v.
Arguments Inherited {V}.
Arguments Undefined {V}.

(** [o[k]] read on an object literal: own properties first, then the
    prototype. *)
Definition get {V : Type} (o : Object V) (k : string) : Lookup V :=
  match getOwn o k with
  | Some v => Own v
  | None => if inherited k then Inherited else Undefined
  end.

(** A property name is an array index when it is the canonical decimal
    form of an integer below [2^32 - 1]. *)
Definition arrayIndex (k : string) : option Z :=
  match k with
  | EmptyString => None
  | String c r =>
      if allDigits k && (negb (Ascii.eqb c "0") || String.eqb r "") then
        match readDigits 10 None k with
        | Some n => if (n <? 4294967295)%Z then Some n else None
        | None => None
        end
      else None
  end.

Definition isArrayIndex (k : string) : bool :=
  match arrayIndex k with Some _ => true | None => false end.

Definition indexOf {V : Type} (p : string * V) : Z :=
  match arrayIndex (fst p) with Some n => n | None => 0%Z end.

(** [Object.entries(o)]: the own properties whose names are array indices
    come first, in ascending numeric order; the others follow in creation
    order. *)
Definition entries {V : Type} (o : Object V) : list (string * V) :=
  sort (fun p q => Some (indexOf p - indexOf q)%Z)
       (filter (fun p => isArrayIndex (fst p)) o)
  ++ filter (fun p => negb (isArrayIndex (fst p))) o.

(** [Object.keys(o)] *)
Definition keys {V : Type} (o : Object V) : list string :=
  map fst (entries o).

Definition values {V : Type} (o : Object V) : list V :=
  map snd (entries o).

End JS.

(** ** State shared by the screens

    The hooks of [Home] that the time index reads and writes.  [console]
    is the diagnostic log ([console.error], [console.warn]); [requests]
    records the polygon fetches a screen has issued. *)

Record LayerConfig : Type := mkLayer {
  id : string;
  name : string;
  gridLayer : string;
  polyLayer : string
}.

Definition AVAILABLE_LAYERS : list LayerConfig :=
  [ mkLayer "30-31" "30-31 kft" "turb-grid-30-31-kft" "turb-poly-30-31-kft";
    mkLayer "32-33" "32-33 kft" "turb-grid-32-33-kft" "turb-poly-32-33-kft";
    mkLayer "34-35" "34-35 kft" "turb-grid-34-35-kft" "turb-poly-34-35-kft";
    mkLayer "36-37" "36-37 kft" "turb-grid-36-37-kft" "turb-poly-36-37-kft";
    mkLayer "38-39" "38-39 kft" "turb-grid-38-39-kft" "turb-poly-38-39-kft";
    mkLayer "40-41" "40-41 kft" "turb-grid-40-41-kft" "turb-poly-40-41-kft";
    mkLayer "max" "Max Value" "turb-grid-Max-Value-30-41-kft"
            "turb-poly-Max-Value-30-41-kft" ].

Inductive LogEntry : Type :=
| ConsoleError (label : string) (e : Exception)
| ConsoleWarn (label : string).

Record State : Type := mkState {
  selectedLayer : LayerConfig;
  availableTimes : list string;
  selectedTime : string;
  showDatePicker : bool;
  selectedDate : option string;
  groupedTimes : JS.Object (list string);
  console : list LogEntry;
  requests : list string
}.

(** The values [useState] starts from. *)
Definition initialState : State :=
  mkState (mkLayer "30-31" "30-31 kft" "turb-grid-30-31-kft"
                   "turb-poly-30-31-kft")
          [] "" false None JS.empty [] [].

Definition setAvailableTimes (v : list string) (s : State) : State :=
  mkState (selectedLayer s) v (selectedTime s) (showDatePicker s)
          (selectedDate s) (groupedTimes s) (console s) (requests s).

Definition setSelectedTime (v : string) (s : State) : State :=
  mkState (selectedLayer s) (availableTimes s) v (showDatePicker s)
          (selectedDate s) (groupedTimes s) (console s) (requests s).

Definition setShowDatePicker (v : bool) (s : State) : State :=
  mkState (selectedLayer s) (availableTimes s) (selectedTime s) v
          (selectedDate s) (groupedTimes s) (console s) (requests s).

Definition setSelectedDate (v : option string) (s : State) : State :=
  mkState (selectedLayer s) (availableTimes s) (selectedTime s)
          (showDatePicker s) v (groupedTimes s) (console s) (requests s).

Definition setGroupedTimes (v : JS.Object (list string)) (s : State) : State :=
  mkState (selectedLayer s) (availableTimes s) (selectedTime s)
          (showDatePicker s) (selectedDate s) v (console s) (requests s).

Definition consoleLog (entry : LogEntry) (s : State) : State :=
  mkState (selectedLayer s) (availableTimes s) (selectedTime s)
          (showDatePicker s) (selectedDate s) (groupedTimes s)
          (console s ++ [entry]) (requests s).

(** [fetchTurbulenceData(time)] is started and not awaited; the request it
    sends is recorded. *)
Definition fetchTurbulenceData (time : string) (s : State) : State :=
  mkState (selectedLayer s) (availableTimes s) (selectedTime s)
          (showDatePicker s) (selectedDate s) (groupedTimes s) (console s)
          (requests s ++
             [("https://realearth.ssec.wisc.edu/api/geojson?products="
                 ++ polyLayer (selectedLayer s) ++ "&time=" ++ time)%string]).

(** What [await axios.get(url)] comes back with: a rejection, or a
    response whose [data] is either falsy ([None]) or an object from
    product ids to lists of timestamp tokens. *)
Inductive AxiosOutcome : Type :=
| Rejected (e : Exception)
| Response (data : option (JS.Object (list string))).

Definition axiosGet (outcome : AxiosOutcome)
  : result (option (JS.Object (list string))) :=
  match outcome with
  | Rejected e => Throw e
  | Response data => Ok data
  end.

(** ** Code common to the four screens *)

(** The callback of [availableTimes.reduce]:
    [const date = time.substring(0, 8); if (!acc[date]) acc[date] = [];
     acc[date].push(time); return acc].
    When [date] names an inherited property, [acc[date]] is truthy but has
    no [push], and the call throws. *)
Definition groupStep (acc : JS.Object (list string)) (time : string)
  : result (JS.Object (list string)) :=
  let date := JS.substring 0 8 time in
  match JS.get acc date with
  | JS.Undefined => Ok (JS.set acc date [time])
  | JS.Own bucket => Ok (JS.set acc date (bucket ++ [time]))
  | JS.Inherited => Throw (TypeError "acc[date].push is not a function")
  end.

(** [availableTimes.reduce(callback, {})] *)
Definition grouped (times : list string) : result (JS.Object (list string)) :=
  fold_left (fun acc time => a <- acc ;; groupStep a time) times (Ok JS.empty).

Definition formatTime (timeString : string) : string :=
  let year := JS.substring 0 4 timeString in
  let month := JS.substring 4 6 timeString in
  let day := JS.substring 6 8 timeString in
  let hour := JS.substring 9 11 timeString in
  let minute := JS.substring 11 13 timeString in
  (year ++ "-" ++ month ++ "-" ++ day ++ " " ++ hour ++ ":" ++ minute
     ++ " UTC")%string.

Definition formatDate (dateString : string) : string :=
  let year := JS.substring 0 4 dateString in
  let month := JS.substring 4 6 dateString in
  let day := JS.substring 6 8 dateString in
  (year ++ "-" ++ month ++ "-" ++ day)%string.

(** The effect that runs when the layer changes, before the new times are
    fetched. *)
Definition resetEffect (s : State) : State :=
  setSelectedDate None
    (setGroupedTimes JS.empty
       (setAvailableTimes [] (setShowDatePicker false s))).

(** ** index.tsx (and the revision with the animation controls) *)

Module Index.

(** The [useEffect] over [availableTimes]. *)
Definition groupingEffect (s : State) : result State :=
  if (0 <? List.length (availableTimes s))%nat then
    g <- grouped (availableTimes s) ;;
    Ok (setSelectedDate (nth_error (JS.keys g) 0) (setGroupedTimes g s))
  else Ok s.

Definition fetchTimesBody (outcome : AxiosOutcome) (s : State) : result State :=
  let productId := gridLayer (selectedLayer s) in
  data <- axiosGet outcome ;;
  match data with
  | None => Ok s
  | Some d =>
      match JS.getOwn d productId with
      | None => Ok s
      | Some times =>
          let s1 := setAvailableTimes times s in
          if (0 <? List.length times)%nat then
            match nth_error times (List.length times - 1) with
            | Some latestTime =>
                Ok (fetchTurbulenceData latestTime
                      (setSelectedTime latestTime s1))
            | None => Ok s1
            end
          else Ok s1
      end
  end.

(** [try { ... } catch (error) { console.error(...) }] *)
Definition fetchTimes (outcome : AxiosOutcome) (s : State) : State :=
  match fetchTimesBody outcome s with
  | Ok s' => s'
  | Throw e => consoleLog (ConsoleError "Error fetching times:" e) s
  end.

(** The date picker lists [Object.keys(groupedTimes)] as it is. *)
Definition listedDates (s : State) : list string := JS.keys (groupedTimes s).

End Index.

(** ** Code common to the two screens that sort the index *)

(** [(a, b) => parseInt(b) - parseInt(a)] *)
Definition byDateDescending (a b : string) : option Z :=
  JS.minus (JS.parseInt b) (JS.parseInt a).

(** [(a, b) => parseInt(b.substring(9)) - parseInt(a.substring(9))] *)
Definition byTimeDescending (a b : string) : option Z :=
  JS.minus (JS.parseInt (JS.substringFrom 9 b))
           (JS.parseInt (JS.substringFrom 9 a)).

(** [Object.keys(grouped).sort(...)] *)
Definition sortedDates (g : JS.Object (list string)) : list string :=
  JS.sort byDateDescending (JS.keys g).

(** [sortedDates.forEach(date => sortedGrouped[date] = grouped[date].sort(...))]
    on a fresh [sortedGrouped].  The bucket is sorted in place and shared
    with [grouped], which is dropped when the effect returns.  A date has at
    most eight characters, so the assignment always creates an own
    property. *)
Definition sortedGrouped (g : JS.Object (list string)) (dates : list string)
  : result (JS.Object (list string)) :=
  fold_left
    (fun acc date =>
       sg <- acc ;;
       match JS.get g date with
       | JS.Own bucket =>
           Ok (JS.set sg date (JS.sort byTimeDescending bucket))
       | _ => Throw (TypeError "grouped[date].sort is not a function")
       end)
    dates (Ok JS.empty).

Definition sortingEffect (s : State) : result State :=
  if (0 <? List.length (availableTimes s))%nat then
    g <- grouped (availableTimes s) ;;
    let dates := sortedDates g in
    sg <- sortedGrouped g dates ;;
    Ok (setSelectedDate (nth_error dates 0) (setGroupedTimes sg s))
  else Ok s.

Module Part000.

Definition groupingEffect : State -> result State := sortingEffect.

Definition fetchTimesBody (outcome : AxiosOutcome) (s : State) : result State :=
  let productId := gridLayer (selectedLayer s) in
  data <- axiosGet outcome ;;
  match match data with Some d => JS.getOwn d productId | None => None end with
  | Some times =>
      let s1 := setAvailableTimes times s in
      if (0 <? List.length times)%nat then
        match nth_error times (List.length times - 1) with
        | Some latestTime => Ok (setSelectedTime latestTime s1)
        | None => Ok s1
        end
      else Ok s1
  | None =>
      Ok (setAvailableTimes []
            (consoleLog
               (ConsoleWarn "No times data available for the selected layer.")
               s))
  end.

Definition fetchTimes (outcome : AxiosOutcome) (s : State) : State :=
  match fetchTimesBody outcome s with
  | Ok s' => s'
  | Throw e => consoleLog (ConsoleError "Error fetching times:" e) s
  end.

(** The date picker lists
    [Object.keys(groupedTimes).sort((a, b) => parseInt(b) - parseInt(a))]. *)
Definition listedDates (s : State) : list string :=
  JS.sort byDateDescending (JS.keys (groupedTimes s)).

End Part000.

Module Part002.

Definition groupingEffect : State -> result State := sortingEffect.

Definition fetchTimesBody (outcome : AxiosOutcome) (s : State) : result State :=
  let productId := gridLayer (selectedLayer s) in
  data <- axiosGet outcome ;;
  match data with
  | None => Ok s
  | Some d =>
      match JS.getOwn d productId with
      | None => Ok s
      | Some times =>
          let s1 := setAvailableTimes times s in
          if (0 <? List.length times)%nat then
            match nth_error times (List.length times - 1) with
            | Some latestTime => Ok (setSelectedTime latestTime s1)
            | None => Ok s1
            end
          else Ok s1
      end
  end.

Definition fetchTimes (outcome : AxiosOutcome) (s : State) : State :=
  match fetchTimesBody outcome s with
  | Ok s' => s'
  | Throw e => consoleLog (ConsoleError "Error fetching times:" e) s
  end.

Definition listedDates (s : State) : list string :=
  JS.sort byDateDescending (JS.keys (groupedTimes s)).

End Part002.

(** ** Polygon colours

    A JavaScript number is an IEEE 754 binary64 value, [spec_float] with
    precision 53.  The three thresholds are the doubles that the literals
    [0.8], [0.6] and [0.4] denote. *)

Definition number : Type := spec_float.

Definition lit_0_8 : number := S754_finite false 7205759403792794 (-53).
Definition lit_0_6 : number := S754_finite false 5404319552844595 (-53).
Definition lit_0_4 : number := S754_finite false 7205759403792794 (-54).

(** [a >= b]; false when either side is NaN. *)
Definition geq (a b : number) : bool := SFleb b a.

(** [a < b]; false when either side is NaN. *)
Definition less (a b : number) : bool := SFltb a b.

Definition getPolygonColor (probability : number) : string :=
  if geq probability lit_0_8 then "rgba(255, 0, 0, 0.5)"
  else if geq probability lit_0_6 then "rgba(255, 165, 0, 0.5)"
  else if geq probability lit_0_4 then "rgba(255, 255, 0, 0.5)"
  else "rgba(0, 255, 0, 0.5)".

(** The severity a colour stands for: green 0, yellow 1, orange 2, red 3. *)
Definition severity (colour : string) : nat :=
  if String.eqb colour "rgba(255, 0, 0, 0.5)" then 3
  else if String.eqb colour "rgba(255, 165, 0, 0.5)" then 2
  else if String.eqb colour "rgba(255, 255, 0, 0.5)" then 1
  else 0.

(** ** Timestamp tokens

    A token is eight date digits, one more character, and the digits of
    the time of day: the servers send ["20240101.060000"], and [formatTime]
    reads the hour at index 9.  At most fifteen time digits keep
    [parseInt] exact. *)
Definition validToken (t : string) : bool :=
  (10 <=? String.length t)%nat && (String.length t <=? 24)%nat
  && JS.allDigits (JS.substring 0 8 t)
  && JS.allDigits (JS.substringFrom 9 t).

(** The date key of a token and the two numbers the sorts compare. *)
Definition dateOf (t : string) : string := JS.substring 0 8 t.

Definition dateNumber (date : string) : option Z := JS.parseInt date.

Definition timeNumber (t : string) : option Z :=
  JS.parseInt (JS.substringFrom 9 t).

(** [a] comes strictly after [b] in time: both numbers exist and the first
    is greater. *)
Definition above (a b : option Z) : Prop :=
  match a, b with
  | Some x, Some y => (x > y)%Z
  | _, _ => False
  end.

Definition atLeast (a b : option Z) : Prop :=
  match a, b with
  | Some x, Some y => (x >= y)%Z
  | _, _ => False
  end.

(** ** Vocabulary of the properties *)

(** The number a string of decimal digits denotes. *)
Fixpoint decimal (s : string) : Z :=
  match s with
  | EmptyString => 0%Z
  | String c r =>
      (JS.digitValue c * 10 ^ Z.of_nat (String.length r) + decimal r)%Z
  end.

(** A date key as the reduce cuts it from a valid token. *)
Definition dateKey (k : string) : Prop :=
  JS.allDigits k = true /\ String.length k = 8%nat.

(** The year of the token has no leading zero. *)
Definition yearFrom1000 (t : string) : bool :=
  match t with
  | String c _ => negb (Ascii.eqb c "0")
  | EmptyString => false
  end.

(** The bucket a mapping holds under a date, empty when there is none. *)
Definition bucketOf (g : JS.Object (list string)) (date : string)
  : list string :=
  match JS.getOwn g date with
  | Some bucket => bucket
  | None => []
  end.

(** What [grouped] has built once it has read the tokens [l]. *)
Record Grouped (l : list string) (g : JS.Object (list string)) : Prop := {
  grouped_NoDup : NoDup (map fst g);
  grouped_date :
    forall k b t, JS.getOwn g k = Some b -> In t b -> dateOf t = k;
  grouped_mem :
    forall t, In t l -> exists b, JS.getOwn g (dateOf t) = Some b /\ In t b;
  grouped_key :
    forall k, In k (map fst g) -> exists t, In t l /\ dateOf t = k;
  grouped_perm : Permutation (List.concat (map snd g)) l
}.

(** The property [sortedGrouped] creates for one date. *)
Definition sortedBucket (g : JS.Object (list string)) (date : string)
  : string * list string :=
  (date, JS.sort byTimeDescending (bucketOf g date)).

Definition datesDescending (dates : list string) : Prop :=
  StronglySorted (fun a b => above (dateNumber a) (dateNumber b)) dates.

Definition timesDescending (bucket : list string) : Prop :=
  StronglySorted (fun a b => atLeast (timeNumber a) (timeNumber b)) bucket.

(** The mapping lists its dates, and every bucket its tokens, in
    descending order. *)
Definition indexDescending (m : JS.Object (list string)) : Prop :=
  datesDescending (JS.keys m) /\ Forall timesDescending (JS.values m).

(** Every token of [times] lies in the bucket of its date and in no other,
    and the buckets together are the input rearranged. *)
Definition partitionsByDate (times : list string)
  (m : JS.Object (list string)) : Prop :=
  NoDup (JS.keys m)
  /\ (forall t, In t times -> In (dateOf t) (JS.keys m))
  /\ (forall t k, In t times -> In k (JS.keys m) ->
                  (In t (bucketOf m k) <-> k = dateOf t))
  /\ Permutation (List.concat (JS.values m)) times.

Definition greatestDate (times : list string) (d : string) : Prop :=
  In d (map dateOf times)
  /\ forall t, In t times -> atLeast (dateNumber d) (dateNumber (dateOf t)).

Definition leastDate (times : list string) (d : string) : Prop :=
  In d (map dateOf times)
  /\ forall t, In t times -> atLeast (dateNumber (dateOf t)) (dateNumber d).

(** The body of the response has nothing under the product id. *)
Definition missingProduct (s : State)
  (data : option (JS.Object (list string))) : Prop :=
  match data with
  | None => True
  | Some d => JS.getOwn d (gridLayer (selectedLayer s)) = None
  end.

(** A screen that has just received [times]. *)
Definition withTimes (times : list string) : State :=
  setAvailableTimes times initialState.

(** Two tokens of two days, in the order the server sends them. *)
Definition twoDays : list string := ["20240101.000000"; "20240102.000000"].

(** The three tokens of the worked example. *)
Definition workedExample : list string :=
  ["202401010000"; "202401010600"; "202401020000"].

(** 0.5 as a double. *)
Definition lit_0_5 : number := S754_finite false 4503599627370496 (-53).

(** ** The picker and the layer buttons

    The handlers of the rendered tree.  An [async] handler runs in two
    uninterrupted parts, before and after its [await]; each part is one
    state transformer.  part_001 shares every handler with index.tsx. *)

Inductive Screen : Type :=
| OnIndex
| OnPart000
| OnPart002.

Definition groupingEffectOf (screen : Screen) : State -> result State :=
  match screen with
  | OnIndex => Index.groupingEffect
  | OnPart000 => Part000.groupingEffect
  | OnPart002 => Part002.groupingEffect
  end.

Definition fetchTimesOf (screen : Screen) : AxiosOutcome -> State -> State :=
  match screen with
  | OnIndex => Index.fetchTimes
  | OnPart000 => Part000.fetchTimes
  | OnPart002 => Part002.fetchTimes
  end.

Definition listedDatesOf (screen : Screen) : State -> list string :=
  match screen with
  | OnIndex => Index.listedDates
  | OnPart000 => Part000.listedDates
  | OnPart002 => Part002.listedDates
  end.

Definition setSelectedLayer (v : LayerConfig) (s : State) : State :=
  mkState v (availableTimes s) (selectedTime s) (showDatePicker s)
          (selectedDate s) (groupedTimes s) (console s) (requests s).

(** [fetchTurbulenceData] as a handler holds it: the function of the
    render in which the handler was created, whose [selectedLayer] is
    [rendered]. *)
Definition requestPolygons (rendered : LayerConfig) (time : string)
  (s : State) : State :=
  mkState (selectedLayer s) (availableTimes s) (selectedTime s)
          (showDatePicker s) (selectedDate s) (groupedTimes s) (console s)
          (requests s ++
             [("https://realearth.ssec.wisc.edu/api/geojson?products="
                 ++ polyLayer rendered ++ "&time=" ++ time)%string]).

(** The label of a time option:
    [{time.substring(9, 11)}:{time.substring(11, 13)} UTC]. *)
Definition timeLabel (time : string) : string :=
  (JS.substring 9 11 time ++ ":" ++ JS.substring 11 13 time ++ " UTC")%string.

(** [onPress] of a date option: [setSelectedDate(date)]. *)
Definition onDatePress (date : string) (s : State) : State :=
  setSelectedDate (Some date) s.

(** [onPress] of a time option. *)
Definition onTimePress (screen : Screen) (time : string) (s : State) : State :=
  match screen with
  | OnIndex =>
      setShowDatePicker false
        (fetchTurbulenceData time (setSelectedTime time s))
  | _ => setShowDatePicker false (setSelectedTime time s)
  end.

(** [onPress] of the time button: [setShowDatePicker(!showDatePicker)]. *)
Definition onTimeButtonPress (s : State) : State :=
  setShowDatePicker (negb (showDatePicker s)) s.

(** [onRequestClose] of the modal and [onPress] of its overlay. *)
Definition onPickerClose (s : State) : State := setShowDatePicker false s.

(** [onPress] of a layer button, up to its [await]. *)
Definition onLayerPress (screen : Screen) (layer : LayerConfig) (s : State)
  : State :=
  match screen with
  | OnIndex =>
      setSelectedLayer layer
        (setSelectedDate None
           (setGroupedTimes JS.empty
              (setAvailableTimes [] (setSelectedTime "" s))))
  | _ => setSelectedLayer layer s
  end.

Definition onLayerResponseBody (screen : Screen) (rendered layer : LayerConfig)
  (outcome : AxiosOutcome) (s : State) : result State :=
  data <- axiosGet outcome ;;
  match data with
  | None => Ok s
  | Some d =>
      match JS.getOwn d (gridLayer layer) with
      | None => Ok s
      | Some times =>
          let s1 := setAvailableTimes times s in
          if (0 <? List.length times)%nat then
            match nth_error times (List.length times - 1) with
            | Some latestTime =>
                match screen with
                | OnIndex =>
                    Ok (requestPolygons rendered latestTime
                          (setSelectedTime latestTime s1))
                | _ => Ok (setSelectedTime latestTime s1)
                end
            | None => Ok s1
            end
          else Ok s1
      end
  end.

(** [onPress] of a layer button, from its [await] on. *)
Definition onLayerResponse (screen : Screen) (rendered layer : LayerConfig)
  (outcome : AxiosOutcome) (s : State) : State :=
  match onLayerResponseBody screen rendered layer outcome s with
  | Ok s' => s'
  | Throw e =>
      consoleLog (ConsoleError "Error fetching times for new layer:" e) s
  end.

(** The time options the picker draws: [groupedTimes[selectedDate]] when
    [selectedDate] is truthy. *)
Definition timeOptions (s : State) : list string :=
  match selectedDate s with
  | Some date =>
      if String.eqb date "" then [] else bucketOf (groupedTimes s) date
  | None => []
  end.

(** What can happen to the state of a screen. *)
Inductive event (screen : Screen) : State -> State -> Prop :=
| GroupingRan s s' :
    groupingEffectOf screen s = Ok s' -> event screen s s'
| LayerChanged s : event screen s (resetEffect s)
| TimesArrived outcome s : event screen s (fetchTimesOf screen outcome s)
| LayerPressed layer s :
    In layer AVAILABLE_LAYERS -> event screen s (onLayerPress screen layer s)
| LayerTimesArrived rendered layer outcome s :
    event screen s (onLayerResponse screen rendered layer outcome s)
| DatePressed date s :
    In date (listedDatesOf screen s) -> event screen s (onDatePress date s)
| TimePressed time s :
    In time (timeOptions s) -> event screen s (onTimePress screen time s)
| TimeButtonPressed s : event screen s (onTimeButtonPress s)
| PickerClosed s : event screen s (onPickerClose s).

Inductive reachable (screen : Screen) : State -> Prop :=
| AtStart : reachable screen initialState
| AfterEvent s s' :
    reachable screen s -> event screen s s' -> reachable screen s'.

(** The time list of the picker has a bucket to read: the selected date,
    when there is one, is a key of the mapping, and no bucket is empty. *)
Definition pickerSafe (s : State) : Prop :=
  (forall date, selectedDate s = Some date ->
                exists bucket,
                  JS.getOwn (groupedTimes s) date = Some bucket)
  /\ (forall date bucket,
         JS.getOwn (groupedTimes s) date = Some bucket -> bucket <> []).

(** [t] has the date [k]. *)
Definition hasDate (k : string) (t : string) : bool :=
  String.eqb (dateOf t) k.

(** The date key of some token names an inherited property. *)
Definition hitsPrototype (times : list string) : Prop :=
  exists t, In t times /\ (dateOf t = "toString" \/ t = "valueOf").

Definition datesAscending (dates : list string) : Prop :=
  StronglySorted (fun a b => above (dateNumber b) (dateNumber a)) dates.

(** The worked example as a response to the first layer's request, the
    state of index.tsx once it has arrived, and the state once the
    grouping effect has run. *)
Definition workedResponse : AxiosOutcome :=
  Response (Some [("turb-grid-30-31-kft", workedExample)]).

Definition workedArrived : State :=
  Index.fetchTimes workedResponse initialState.

Definition workedGrouped : State :=
  setSelectedDate (Some "20240101")
    (setGroupedTimes
       [("20240101", ["202401010000"; "202401010600"]);
        ("20240102", ["202401020000"])]
       workedArrived).

(** A later response whose list for the product is empty, and the state of
    index.tsx once it has arrived after the worked example was grouped. *)
Definition emptyListResponse : AxiosOutcome :=
  Response (Some [("turb-grid-30-31-kft", [])]).

Definition workedStale : State :=
  Index.fetchTimes emptyListResponse workedGrouped.

(** The same on part_000: the worked example arrived and grouped, then a
    response without a body. *)
Definition sortedArrived : State :=
  Part000.fetchTimes workedResponse initialState.

Definition sortedGroupedState : State :=
  setSelectedDate (Some "20240102")
    (setGroupedTimes
       [("20240102", ["202401020000"]);
        ("20240101", ["202401010600"; "202401010000"])]
       sortedArrived).

Definition sortedStale : State :=
  Part000.fetchTimes (Response None) sortedGroupedState.

(** The mapping is empty and neither a date nor a time is selected. *)
Definition nothingSelected (s : State) : Prop :=
  groupedTimes s = JS.empty /\ selectedDate s = None /\ selectedTime s = "".

(** A goal about one of the three [fetchTimes] or grouping effects is
    proved screen by screen. *)
Ltac each_screen H := destruct H as [<-|[<-|[<-|[]]]].

Ltac unfold_effects :=
  unfold Part000.groupingEffect, Part002.groupingEffect, sortingEffect,
    Index.groupingEffect.

(** * Strings of digits *)

Section Digits.

Lemma isDigit_range c :
  JS.isDigit c = true -> (48 <= nat_of_ascii c <= 57)%nat.
Proof.
  unfold JS.isDigit. intros H. apply andb_true_iff in H as [H1 H2].
  apply Nat.leb_le in H1. apply Nat.leb_le in H2. lia.
Qed.

Lemma digitValue_range c :
  JS.isDigit c = true -> (0 <= JS.digitValue c <= 9)%Z.
Proof.
  intros H. apply isDigit_range in H. unfold JS.digitValue. lia.
Qed.

Lemma digitValue_inj c1 c2 :
  JS.isDigit c1 = true -> JS.isDigit c2 = true ->
  JS.digitValue c1 = JS.digitValue c2 -> c1 = c2.
Proof.
  intros H1 H2 E. apply isDigit_range in H1. apply isDigit_range in H2.
  unfold JS.digitValue in E.
  assert (N : nat_of_ascii c1 = nat_of_ascii c2) by lia.
  rewrite <- (ascii_nat_embedding c1), <- (ascii_nat_embedding c2).
  now rewrite N.
Qed.

Lemma decimal_range s :
  JS.allDigits s = true ->
  (0 <= decimal s < 10 ^ Z.of_nat (String.length s))%Z.
Proof.
  induction s as [|c r IH]; cbn [decimal String.length JS.allDigits];
    intros H.
  - simpl. lia.
  - apply andb_true_iff in H as [Hc Hr].
    specialize (IH Hr). apply digitValue_range in Hc.
    rewrite Nat2Z.inj_succ, Z.pow_succ_r by lia. nia.
Qed.

Lemma digitIn_decimal c :
  JS.isDigit c = true -> JS.digitIn 10 c = Some (JS.digitValue c).
Proof.
  intros H. unfold JS.digitIn. rewrite H. reflexivity.
Qed.

Lemma readDigits_decimal s :
  JS.allDigits s = true ->
  forall a,
    JS.readDigits 10 (Some a) s
    = Some (a * 10 ^ Z.of_nat (String.length s) + decimal s)%Z.
Proof.
  induction s as [|c r IH];
    cbn [decimal String.length JS.allDigits JS.readDigits]; intros H a.
  - f_equal. simpl. lia.
  - apply andb_true_iff in H as [Hc Hr].
    rewrite (digitIn_decimal c Hc), (IH Hr).
    f_equal. rewrite Nat2Z.inj_succ, Z.pow_succ_r by lia. ring.
Qed.

Lemma readDigits_fresh c r :
  JS.allDigits (String c r) = true ->
  JS.readDigits 10 None (String c r) = Some (decimal (String c r)).
Proof.
  cbn [decimal JS.allDigits JS.readDigits]. intros H.
  apply andb_true_iff in H as [Hc Hr].
  rewrite (digitIn_decimal c Hc), (readDigits_decimal r Hr).
  f_equal; ring.
Qed.

(** On a string that starts with a digit, [parseInt] has no white space,
    sign or base prefix to skip. *)
Lemma parseInt_digit_first c r :
  JS.isDigit c = true ->
  (forall c' r', r = String c' r' -> JS.isDigit c' = true) ->
  JS.parseInt (String c r)
  = match JS.readDigits 10 None (String c r) with
    | Some m => Some m
    | None => None
    end.
Proof.
  intros Hc Hr.
  destruct c as [[] [] [] [] [] [] [] []]; try discriminate Hc;
    try reflexivity.
  destruct r as [|c' r']; [reflexivity|].
  specialize (Hr c' r' eq_refl).
  destruct c' as [[] [] [] [] [] [] [] []]; try discriminate Hr; reflexivity.
Qed.

Lemma parseInt_allDigits s :
  JS.allDigits s = true -> s <> "" ->
  JS.parseInt s = Some (decimal s).
Proof.
  destruct s as [|c r]; [congruence|]. intros H _.
  rewrite parseInt_digit_first.
  - now rewrite readDigits_fresh.
  - simpl in H. now apply andb_true_iff in H as [Hc _].
  - intros c' r' ->. simpl in H.
    apply andb_true_iff in H as [_ H]. now apply andb_true_iff in H as [H _].
Qed.

Lemma decimal_inj s1 :
  forall s2,
    JS.allDigits s1 = true -> JS.allDigits s2 = true ->
    String.length s1 = String.length s2 ->
    decimal s1 = decimal s2 -> s1 = s2.
Proof.
  induction s1 as [|c1 r1 IH]; intros [|c2 r2] H1 H2 L E;
    cbn [decimal String.length JS.allDigits] in *; try discriminate;
    [reflexivity|].
  apply andb_true_iff in H1 as [Hc1 Hr1].
  apply andb_true_iff in H2 as [Hc2 Hr2].
  injection L as L.
  pose proof (decimal_range r1 Hr1) as B1.
  pose proof (decimal_range r2 Hr2) as B2.
  pose proof (digitValue_range c1 Hc1) as D1.
  pose proof (digitValue_range c2 Hc2) as D2.
  rewrite L in *.
  set (P := (10 ^ Z.of_nat (String.length r2))%Z) in *.
  assert (JS.digitValue c1 = JS.digitValue c2 /\ decimal r1 = decimal r2)
    as [Ed Er].
  { apply (Z.div_mod_unique P); [left; lia | left; lia | lia]. }
  f_equal; [now apply digitValue_inj | now apply IH].
Qed.

End Digits.

(** * Array.prototype.sort *)

Section SortFacts.
Context {A : Type}.
Variable comparefn : A -> A -> option Z.

Lemma insert_Permutation x l :
  Permutation (JS.insert comparefn x l) (x :: l).
Proof.
  induction l as [|y l IH]; simpl.
  - apply Permutation_refl.
  - destruct (JS.SortCompare comparefn x y <=? 0)%Z.
    + apply Permutation_refl.
    + rewrite IH. apply perm_swap.
Qed.

Lemma sort_Permutation l : Permutation (JS.sort comparefn l) l.
Proof.
  induction l as [|x l IH]; simpl.
  - apply perm_nil.
  - rewrite insert_Permutation. now apply perm_skip.
Qed.

Lemma sort_In x l : In x (JS.sort comparefn l) <-> In x l.
Proof.
  split; apply Permutation_in;
    [apply sort_Permutation | apply Permutation_sym, sort_Permutation].
Qed.

Lemma sort_NoDup l : NoDup l -> NoDup (JS.sort comparefn l).
Proof.
  apply Permutation_NoDup, Permutation_sym, sort_Permutation.
Qed.

(** When [comparefn] is the difference of a key, the result is in
    ascending key order. *)
Variable key : A -> Z.

Lemma insert_sorted x l :
  (forall y, In y l -> JS.SortCompare comparefn x y = (key x - key y)%Z) ->
  StronglySorted (fun a b => (key a <= key b)%Z) l ->
  StronglySorted (fun a b => (key a <= key b)%Z) (JS.insert comparefn x l).
Proof.
  induction l as [|y l IH]; intros Hcmp Hs; simpl.
  - constructor; constructor.
  - inversion Hs as [|? ? Hs' Hall]; subst.
    rewrite (Hcmp y (or_introl eq_refl)).
    destruct (key x - key y <=? 0)%Z eqn:E.
    + apply Z.leb_le in E. constructor; [assumption|].
      constructor; [lia|].
      eapply Forall_impl; [|exact Hall]. simpl. intros; lia.
    + apply Z.leb_gt in E. constructor.
      * apply IH; [|assumption]. intros z Hz. apply Hcmp. now right.
      * apply Forall_forall. intros z Hz.
        apply (Permutation_in _ (insert_Permutation x l)) in Hz.
        destruct Hz as [<-|Hz]; [lia|].
        rewrite Forall_forall in Hall. now apply Hall.
Qed.

Lemma sort_sorted l :
  (forall x y, In x l -> In y l ->
               JS.SortCompare comparefn x y = (key x - key y)%Z) ->
  StronglySorted (fun a b => (key a <= key b)%Z) (JS.sort comparefn l).
Proof.
  induction l as [|x l IH]; intros Hcmp; simpl.
  - constructor.
  - apply insert_sorted.
    + intros y Hy. apply Hcmp; [now left | right; now apply sort_In].
    + apply IH. intros a b Ha Hb. apply Hcmp; now right.
Qed.

End SortFacts.

Lemma StronglySorted_impl_In {A : Type} (R S : A -> A -> Prop) l :
  (forall a b, In a l -> In b l -> R a b -> S a b) ->
  StronglySorted R l -> StronglySorted S l.
Proof.
  induction l as [|x l IH]; intros HRS Hs.
  - constructor.
  - inversion Hs as [|? ? Hs' Hall]; subst. constructor.
    + apply IH; [|assumption]. intros a b Ha Hb. apply HRS; now right.
    + rewrite Forall_forall in *. intros y Hy.
      apply HRS; [now left | now right | now apply Hall].
Qed.

(** In a list without duplicates that is sorted for [<=] on an injective
    key, neighbours are strictly ordered. *)
Lemma StronglySorted_strict {A : Type} (key : A -> Z) l :
  NoDup l ->
  (forall a b, In a l -> In b l -> key a = key b -> a = b) ->
  StronglySorted (fun a b => (key a <= key b)%Z) l ->
  StronglySorted (fun a b => (key a < key b)%Z) l.
Proof.
  induction l as [|x l IH]; intros Hnd Hinj Hs.
  - constructor.
  - inversion Hs as [|? ? Hs' Hall]; subst.
    inversion Hnd as [|? ? Hx Hnd']; subst. constructor.
    + apply IH; [assumption| |assumption].
      intros a b Ha Hb. apply Hinj; now right.
    + rewrite Forall_forall in *. intros y Hy.
      specialize (Hall y Hy).
      assert (key x <> key y).
      { intros E. apply Hx.
        rewrite (Hinj x y (or_introl eq_refl) (or_intror Hy) E). exact Hy. }
      lia.
Qed.

(** * Objects *)

Section ObjectFacts.
Context {V : Type}.
Implicit Types (o : JS.Object V) (k : string) (v : V).

Lemma getOwn_In o k v : JS.getOwn o k = Some v -> In (k, v) o.
Proof.
  induction o as [|[k' v'] o IH]; simpl; [discriminate|].
  destruct (String.eqb_spec k' k) as [->|N].
  - intros [= ->]. now left.
  - intros H. right. now apply IH.
Qed.

Lemma getOwn_None o k : JS.getOwn o k = None <-> ~ In k (map fst o).
Proof.
  induction o as [|[k' v'] o IH]; simpl.
  - tauto.
  - destruct (String.eqb_spec k' k) as [->|N].
    + split; [discriminate | intros H; exfalso; apply H; now left].
    + rewrite IH. tauto.
Qed.

Lemma getOwn_Some_key o k v : JS.getOwn o k = Some v -> In k (map fst o).
Proof.
  intros H. apply getOwn_In in H. now apply (in_map fst) in H.
Qed.

Lemma In_getOwn o k v :
  NoDup (map fst o) -> In (k, v) o -> JS.getOwn o k = Some v.
Proof.
  induction o as [|[k' v'] o IH]; simpl; [tauto|].
  intros Hnd [E|Hin].
  - injection E as -> ->. now rewrite String.eqb_refl.
  - inversion Hnd as [|? ? Hk Hnd']; subst.
    destruct (String.eqb_spec k' k) as [->|N].
    + exfalso. apply Hk. now apply (in_map fst) in Hin.
    + now apply IH.
Qed.

Lemma set_fresh o k v :
  JS.getOwn o k = None -> JS.set o k v = o ++ [(k, v)].
Proof.
  induction o as [|[k' v'] o IH]; simpl; [reflexivity|].
  destruct (String.eqb k' k); [discriminate|].
  intros H. now rewrite IH.
Qed.

Lemma set_keys_present o k v v0 :
  JS.getOwn o k = Some v0 -> map fst (JS.set o k v) = map fst o.
Proof.
  induction o as [|[k' v'] o IH]; simpl; [discriminate|].
  destruct (String.eqb k' k); [reflexivity|].
  intros H. simpl. now rewrite IH.
Qed.

Lemma getOwn_set_same o k v : JS.getOwn (JS.set o k v) k = Some v.
Proof.
  induction o as [|[k' v'] o IH]; simpl.
  - now rewrite String.eqb_refl.
  - destruct (String.eqb k' k) eqn:E; simpl; now rewrite E.
Qed.

Lemma getOwn_set_other o k k' v :
  k <> k' -> JS.getOwn (JS.set o k v) k' = JS.getOwn o k'.
Proof.
  intros N. induction o as [|[k0 v0] o IH]; simpl.
  - now apply String.eqb_neq in N as ->.
  - destruct (String.eqb_spec k0 k) as [->|N0]; simpl.
    + now apply String.eqb_neq in N as ->.
    + now rewrite IH.
Qed.

Lemma set_NoDup o k v : NoDup (map fst o) -> NoDup (map fst (JS.set o k v)).
Proof.
  intros Hnd. destruct (JS.getOwn o k) as [v0|] eqn:E.
  - now rewrite (set_keys_present _ _ _ _ E).
  - rewrite (set_fresh _ _ _ E), map_app. simpl.
    apply getOwn_None in E.
    apply (Permutation_NoDup (Permutation_cons_append _ _)).
    now constructor.
Qed.

Lemma filter_split_Permutation {X : Type} (p : X -> bool) (l : list X) :
  Permutation (filter p l ++ filter (fun x => negb (p x)) l) l.
Proof.
  induction l as [|x l IH]; simpl; [constructor|].
  destruct (p x); simpl.
  - now apply perm_skip.
  - apply Permutation_sym, Permutation_cons_app, Permutation_sym, IH.
Qed.

Lemma entries_Permutation o : Permutation (JS.entries o) o.
Proof.
  unfold JS.entries.
  rewrite sort_Permutation. apply filter_split_Permutation.
Qed.

Lemma keys_Permutation o : Permutation (JS.keys o) (map fst o).
Proof.
  unfold JS.keys. apply Permutation_map, entries_Permutation.
Qed.

Lemma In_keys o k : In k (JS.keys o) <-> In k (map fst o).
Proof.
  split; apply Permutation_in;
    [apply keys_Permutation | apply Permutation_sym, keys_Permutation].
Qed.

Lemma keys_NoDup o : NoDup (map fst o) -> NoDup (JS.keys o).
Proof.
  apply Permutation_NoDup, Permutation_sym, keys_Permutation.
Qed.

Lemma keys_getOwn o k : In k (JS.keys o) <-> JS.getOwn o k <> None.
Proof.
  rewrite In_keys. split.
  - intros H E. now apply getOwn_None in E.
  - intros H. destruct (JS.getOwn o k) eqn:E; [|congruence].
    now apply getOwn_Some_key in E.
Qed.

Lemma get_Own o k v : JS.getOwn o k = Some v -> JS.get o k = JS.Own v.
Proof. unfold JS.get. now intros ->. Qed.

End ObjectFacts.

(** * Tokens *)

Section Tokens.

Lemma substring_length s :
  forall n m, (n + m <= String.length s)%nat ->
              String.length (String.substring n m s) = m.
Proof.
  induction s as [|c s IH]; intros [|n] [|m] H; simpl in *;
    try reflexivity; try lia.
  - f_equal. apply (IH 0%nat). lia.
  - apply (IH n 0%nat). lia.
  - apply (IH n (S m)). lia.
Qed.

Lemma validToken_length t :
  validToken t = true -> (10 <= String.length t <= 24)%nat.
Proof.
  unfold validToken. intros H.
  repeat (apply andb_true_iff in H as [H ?]).
  apply Nat.leb_le in H. match goal with X : (_ <=? 24)%nat = true |- _ =>
    apply Nat.leb_le in X end. lia.
Qed.

Lemma validToken_date t :
  validToken t = true ->
  JS.allDigits (dateOf t) = true /\ String.length (dateOf t) = 8%nat.
Proof.
  intros H. pose proof (validToken_length t H) as L.
  unfold validToken in H. repeat (apply andb_true_iff in H as [H ?]).
  split; [assumption|].
  unfold dateOf, JS.substring. simpl. apply substring_length. lia.
Qed.

Lemma validToken_time t :
  validToken t = true ->
  JS.allDigits (JS.substringFrom 9 t) = true /\ JS.substringFrom 9 t <> "".
Proof.
  intros H. pose proof (validToken_length t H) as L.
  unfold validToken in H. repeat (apply andb_true_iff in H as [H ?]).
  split; [assumption|].
  intros E. apply (f_equal String.length) in E. revert E.
  unfold JS.substringFrom, JS.substring.
  rewrite Nat.min_l, Nat.max_r by lia.
  rewrite substring_length by lia. simpl. lia.
Qed.

Lemma dateNumber_valid t :
  validToken t = true -> dateNumber (dateOf t) = Some (decimal (dateOf t)).
Proof.
  intros H. apply validToken_date in H as [D L].
  apply parseInt_allDigits; [assumption|].
  intros E. rewrite E in L. discriminate.
Qed.

Lemma timeNumber_valid t :
  validToken t = true ->
  timeNumber t = Some (decimal (JS.substringFrom 9 t)).
Proof.
  intros H. apply validToken_time in H as [D N].
  now apply parseInt_allDigits.
Qed.

Lemma digits_not_inherited k :
  JS.allDigits k = true -> k <> "" -> JS.inherited k = false.
Proof.
  intros D N. destruct (JS.inherited k) eqn:E; [|reflexivity].
  unfold JS.inherited in E. apply existsb_exists in E as (p & Hin & Heq).
  apply String.eqb_eq in Heq. subst p. exfalso.
  unfold JS.ObjectPrototype in Hin. simpl in Hin.
  repeat (destruct Hin as [<-|Hin]; [discriminate D|]).
  exact Hin.
Qed.

Lemma validToken_not_inherited t :
  validToken t = true -> JS.inherited (dateOf t) = false.
Proof.
  intros H. apply validToken_date in H as [D L].
  apply digits_not_inherited; [assumption|].
  intros E. rewrite E in L. discriminate.
Qed.

End Tokens.

(** * The grouping *)

Section Grouping.

Lemma concat_set_present {X : Type} (o : JS.Object (list X)) k b x :
  JS.getOwn o k = Some b ->
  Permutation (List.concat (map snd (JS.set o k (b ++ x))))
              (List.concat (map snd o) ++ x).
Proof.
  induction o as [|[k' v'] o IH]; simpl; [discriminate|].
  destruct (String.eqb k' k).
  - intros [= ->]. simpl. rewrite <- !app_assoc.
    apply Permutation_app_head, Permutation_app_comm.
  - intros H. simpl. rewrite <- app_assoc.
    apply Permutation_app_head, IH, H.
Qed.

Lemma Grouped_empty : Grouped [] JS.empty.
Proof.
  split; simpl.
  - constructor.
  - discriminate.
  - tauto.
  - tauto.
  - constructor.
Qed.

Lemma groupStep_Grouped l g t :
  Grouped l g -> JS.inherited (dateOf t) = false ->
  exists g', groupStep g t = Ok g' /\ Grouped (l ++ [t]) g'.
Proof.
  intros [Hnd Hdate Hmem Hkey Hperm] Hinh.
  unfold groupStep, JS.get. fold (dateOf t). rewrite Hinh.
  destruct (JS.getOwn g (dateOf t)) as [b|] eqn:E.
  - eexists; split; [reflexivity|]. split.
    + now apply set_NoDup.
    + intros k b' t' Hget Hin.
      destruct (String.eqb_spec (dateOf t) k) as [<-|N].
      * rewrite getOwn_set_same in Hget. injection Hget as <-.
        apply in_app_or in Hin as [Hin|[<-|[]]]; [|reflexivity].
        now apply (Hdate _ _ _ E).
      * rewrite getOwn_set_other in Hget by assumption.
        now apply (Hdate _ _ _ Hget).
    + intros t' Hin.
      destruct (String.eqb_spec (dateOf t) (dateOf t')) as [Ek|N].
      * rewrite <- Ek, getOwn_set_same. eexists; split; [reflexivity|].
        apply in_or_app. apply in_app_or in Hin as [Hin|[<-|[]]].
        -- left. destruct (Hmem t' Hin) as (b' & Hb' & Hin').
           rewrite <- Ek, E in Hb'. now injection Hb' as <-.
        -- right. now left.
      * rewrite getOwn_set_other by assumption.
        apply in_app_or in Hin as [Hin|[<-|[]]]; [|congruence].
        now apply Hmem.
    + intros k. rewrite (set_keys_present _ _ _ _ E). intros Hk.
      destruct (Hkey k Hk) as (t' & Ht' & Ed). exists t'.
      split; [apply in_or_app; now left | assumption].
    + rewrite concat_set_present by exact E.
      now apply Permutation_app_tail.
  - eexists; split; [reflexivity|].
    pose proof (set_fresh g (dateOf t) [t] E) as Eset. split.
    + now apply set_NoDup.
    + intros k b' t' Hget Hin.
      destruct (String.eqb_spec (dateOf t) k) as [<-|N].
      * rewrite getOwn_set_same in Hget. injection Hget as <-.
        destruct Hin as [<-|[]]. reflexivity.
      * rewrite getOwn_set_other in Hget by assumption.
        now apply (Hdate _ _ _ Hget).
    + intros t' Hin.
      destruct (String.eqb_spec (dateOf t) (dateOf t')) as [Ek|N].
      * rewrite <- Ek, getOwn_set_same. eexists; split; [reflexivity|].
        apply in_app_or in Hin as [Hin|[<-|[]]]; [|now left].
        destruct (Hmem t' Hin) as (b' & Hb' & _).
        rewrite <- Ek, E in Hb'. discriminate.
      * rewrite getOwn_set_other by assumption.
        apply in_app_or in Hin as [Hin|[<-|[]]]; [|congruence].
        now apply Hmem.
    + intros k. rewrite Eset, map_app. simpl. intros Hk.
      apply in_app_or in Hk as [Hk|[<-|[]]].
      * destruct (Hkey k Hk) as (t' & Ht' & Ed). exists t'.
        split; [apply in_or_app; now left | assumption].
      * exists t. split; [apply in_or_app; right; now left | reflexivity].
    + rewrite Eset, map_app, concat_app. simpl.
      now apply Permutation_app_tail.
Qed.

Lemma grouped_from l g rest :
  Grouped l g ->
  (forall t, In t rest -> JS.inherited (dateOf t) = false) ->
  exists g',
    fold_left (fun acc time => a <- acc ;; groupStep a time) rest (Ok g)
    = Ok g'
    /\ Grouped (l ++ rest) g'.
Proof.
  revert l g. induction rest as [|t rest IH]; intros l g Hg Hinh; simpl.
  - exists g. now rewrite app_nil_r.
  - destruct (groupStep_Grouped l g t Hg) as (g1 & E1 & Hg1).
    { apply Hinh. now left. }
    rewrite E1.
    destruct (IH (l ++ [t]) g1 Hg1) as (g' & E' & Hg').
    { intros t' Ht'. apply Hinh. now right. }
    exists g'. split; [assumption|].
    now rewrite <- app_assoc in Hg'.
Qed.

(** The grouping succeeds on every list whose date keys name no inherited
    property, whatever the length of the tokens. *)
Lemma grouped_Grouped times :
  (forall t, In t times -> JS.inherited (dateOf t) = false) ->
  exists g, grouped times = Ok g /\ Grouped times g.
Proof.
  intros H. apply (grouped_from [] JS.empty times Grouped_empty H).
Qed.

Lemma grouped_valid times :
  Forall (fun t => validToken t = true) times ->
  exists g, grouped times = Ok g /\ Grouped times g.
Proof.
  intros H. apply grouped_Grouped. rewrite Forall_forall in H.
  intros t Ht. now apply validToken_not_inherited, H.
Qed.

End Grouping.

(** * The sorted index *)

Section SortedIndex.

Lemma Permutation_concat {X : Type} (l l' : list (list X)) :
  Permutation l l' -> Permutation (List.concat l) (List.concat l').
Proof.
  induction 1; simpl.
  - constructor.
  - now apply Permutation_app_head.
  - rewrite !app_assoc. apply Permutation_app_tail, Permutation_app_comm.
  - etransitivity; eassumption.
Qed.

Lemma Permutation_concat_map {X Y : Type} (f h : X -> list Y) l :
  (forall x, In x l -> Permutation (f x) (h x)) ->
  Permutation (List.concat (map f l)) (List.concat (map h l)).
Proof.
  induction l as [|x l IH]; intros H; simpl.
  - constructor.
  - apply Permutation_app; [apply H; now left|].
    apply IH. intros y Hy. apply H. now right.
Qed.

Lemma getOwn_map_key {V : Type} (f : string -> V) dates d :
  JS.getOwn (map (fun x => (x, f x)) dates) d
  = if in_dec string_dec d dates then Some (f d) else None.
Proof.
  induction dates as [|x dates IH]; simpl; [reflexivity|].
  destruct (String.eqb_spec x d) as [->|N].
  - destruct (string_dec d d); [reflexivity|congruence].
  - rewrite IH. destruct (string_dec x d); [congruence|].
    now destruct (in_dec string_dec d dates).
Qed.

Lemma sortedGrouped_from g dates :
  forall sg,
    NoDup dates ->
    (forall d, In d dates ->
               JS.getOwn g d <> None /\ JS.getOwn sg d = None) ->
    fold_left
      (fun acc date =>
         sg <- acc ;;
         match JS.get g date with
         | JS.Own bucket =>
             Ok (JS.set sg date (JS.sort byTimeDescending bucket))
         | _ => Throw (TypeError "grouped[date].sort is not a function")
         end)
      dates (Ok sg)
    = Ok (sg ++ map (sortedBucket g) dates).
Proof.
  induction dates as [|d dates IH]; intros sg Hnd H; simpl.
  - now rewrite app_nil_r.
  - inversion Hnd as [|? ? Hd Hnd']; subst.
    destruct (H d (or_introl eq_refl)) as [Hg Hsg].
    destruct (JS.getOwn g d) as [b|] eqn:E; [|congruence].
    rewrite (get_Own _ _ _ E), (set_fresh _ _ _ Hsg).
    rewrite IH; [|assumption|].
    + rewrite <- app_assoc. simpl. unfold sortedBucket at 2, bucketOf.
      now rewrite E.
    + intros d' Hd'. destruct (H d' (or_intror Hd')) as [Hg' Hsg'].
      split; [assumption|].
      apply getOwn_None. rewrite map_app, in_app_iff. simpl.
      apply getOwn_None in Hsg'. intros [?|[->|[]]]; tauto.
Qed.

Lemma sortedGrouped_map g dates :
  NoDup dates -> (forall d, In d dates -> JS.getOwn g d <> None) ->
  sortedGrouped g dates = Ok (map (sortedBucket g) dates).
Proof.
  intros Hnd H. unfold sortedGrouped.
  rewrite sortedGrouped_from; [reflexivity|assumption|].
  intros d Hd. split; [now apply H | reflexivity].
Qed.

Lemma sortedDates_Permutation (g : JS.Object (list string)) :
  Permutation (sortedDates g) (map fst g).
Proof.
  unfold sortedDates. rewrite sort_Permutation. apply keys_Permutation.
Qed.

Lemma sortedDates_In (g : JS.Object (list string)) d :
  In d (sortedDates g) <-> In d (map fst g).
Proof.
  split; apply Permutation_in;
    [|apply Permutation_sym]; apply sortedDates_Permutation.
Qed.

(** What the sorting effect leaves in the state. *)
Lemma sortingEffect_Grouped s :
  (forall t, In t (availableTimes s) -> JS.inherited (dateOf t) = false) ->
  availableTimes s <> [] ->
  exists g,
    grouped (availableTimes s) = Ok g
    /\ Grouped (availableTimes s) g
    /\ sortingEffect s
       = Ok (setSelectedDate (nth_error (sortedDates g) 0)
               (setGroupedTimes (map (sortedBucket g) (sortedDates g)) s)).
Proof.
  intros Hinh Hne.
  destruct (grouped_Grouped _ Hinh) as (g & Eg & Hg).
  exists g. split; [assumption|]. split; [assumption|].
  unfold sortingEffect.
  destruct (availableTimes s) as [|t ts] eqn:Et; [congruence|].
  simpl Nat.ltb. cbv iota. rewrite Eg. simpl bind.
  rewrite sortedGrouped_map; [reflexivity| |].
  - apply (Permutation_NoDup (Permutation_sym (sortedDates_Permutation g))).
    apply (grouped_NoDup _ _ Hg).
  - intros d Hd E. apply sortedDates_In in Hd.
    now apply getOwn_None in E.
Qed.

Lemma indexEffect_Grouped s :
  (forall t, In t (availableTimes s) -> JS.inherited (dateOf t) = false) ->
  availableTimes s <> [] ->
  exists g,
    grouped (availableTimes s) = Ok g
    /\ Grouped (availableTimes s) g
    /\ Index.groupingEffect s
       = Ok (setSelectedDate (nth_error (JS.keys g) 0) (setGroupedTimes g s)).
Proof.
  intros Hinh Hne.
  destruct (grouped_Grouped _ Hinh) as (g & Eg & Hg).
  exists g. split; [assumption|]. split; [assumption|].
  unfold Index.groupingEffect.
  destruct (availableTimes s) as [|t ts] eqn:Et; [congruence|].
  simpl Nat.ltb. cbv iota. now rewrite Eg.
Qed.

(** ** Descending order *)

Lemma dateKey_number k : dateKey k -> dateNumber k = Some (decimal k).
Proof.
  intros [D L]. apply parseInt_allDigits; [assumption|].
  intros ->. discriminate.
Qed.

Lemma sort_dates_descending ks :
  NoDup ks -> Forall dateKey ks ->
  datesDescending (JS.sort byDateDescending ks).
Proof.
  intros Hnd Hk. rewrite Forall_forall in Hk.
  pose (key := fun k => (- decimal k)%Z).
  assert (Hs : StronglySorted (fun a b => (key a < key b)%Z)
                 (JS.sort byDateDescending ks)).
  { apply StronglySorted_strict.
    - now apply sort_NoDup.
    - intros a b Ha Hb E. apply sort_In in Ha, Hb.
      destruct (Hk a Ha) as [Da La]. destruct (Hk b Hb) as [Db Lb].
      apply decimal_inj; try assumption; [congruence|]. unfold key in E. lia.
    - apply sort_sorted. intros x y Hx Hy.
      unfold JS.SortCompare, byDateDescending.
      fold (dateNumber x). fold (dateNumber y).
      rewrite (dateKey_number x (Hk x Hx)), (dateKey_number y (Hk y Hy)).
      simpl. unfold key. lia. }
  unfold datesDescending.
  eapply StronglySorted_impl_In; [|exact Hs].
  intros a b Ha Hb Hlt. apply sort_In in Ha, Hb.
  rewrite (dateKey_number a (Hk a Ha)), (dateKey_number b (Hk b Hb)).
  simpl. unfold key in Hlt. lia.
Qed.

Lemma sort_times_descending bucket :
  Forall (fun t => validToken t = true) bucket ->
  timesDescending (JS.sort byTimeDescending bucket).
Proof.
  intros Hv. rewrite Forall_forall in Hv.
  pose (key := fun t => (- decimal (JS.substringFrom 9 t))%Z).
  assert (Hs : StronglySorted (fun a b => (key a <= key b)%Z)
                 (JS.sort byTimeDescending bucket)).
  { apply sort_sorted. intros x y Hx Hy.
    unfold JS.SortCompare, byTimeDescending.
    fold (timeNumber x). fold (timeNumber y).
    rewrite (timeNumber_valid x (Hv x Hx)), (timeNumber_valid y (Hv y Hy)).
    simpl. unfold key. lia. }
  unfold timesDescending.
  eapply StronglySorted_impl_In; [|exact Hs].
  intros a b Ha Hb Hle. apply sort_In in Ha, Hb.
  rewrite (timeNumber_valid a (Hv a Ha)), (timeNumber_valid b (Hv b Hb)).
  simpl. unfold key in Hle. lia.
Qed.

Lemma Grouped_dateKey l g k :
  Grouped l g -> Forall (fun t => validToken t = true) l ->
  In k (map fst g) -> dateKey k.
Proof.
  intros Hg Hv Hk. rewrite Forall_forall in Hv.
  destruct (grouped_key _ _ Hg k Hk) as (t & Ht & <-).
  now apply validToken_date, Hv.
Qed.

Lemma Grouped_bucket_valid l g k b :
  Grouped l g -> Forall (fun t => validToken t = true) l ->
  JS.getOwn g k = Some b -> Forall (fun t => validToken t = true) b.
Proof.
  intros Hg Hv Hb. rewrite Forall_forall in *. intros t Ht. apply Hv.
  apply (Permutation_in _ (grouped_perm _ _ Hg)).
  apply in_concat. exists b. split; [|assumption].
  apply getOwn_In in Hb. now apply (in_map snd) in Hb.
Qed.

End SortedIndex.

Section Partition.

Lemma bucketOf_map_key (f : string -> list string) dates d :
  In d dates -> bucketOf (map (fun x => (x, f x)) dates) d = f d.
Proof.
  intros H. unfold bucketOf. rewrite getOwn_map_key.
  now destruct (in_dec string_dec d dates).
Qed.

Lemma map_fst_sortedBucket g dates :
  map fst (map (sortedBucket g) dates) = dates.
Proof.
  rewrite map_map. simpl. apply map_id.
Qed.

Lemma map_bucketOf_keys (g : JS.Object (list string)) :
  NoDup (map fst g) -> map (bucketOf g) (map fst g) = map snd g.
Proof.
  induction g as [|[k v] g IH]; simpl; intros Hnd; [reflexivity|].
  inversion Hnd as [|? ? Hk Hnd']; subst. f_equal.
  - unfold bucketOf. simpl. now rewrite String.eqb_refl.
  - rewrite <- (IH Hnd'). apply map_ext_in. intros k' Hk'.
    unfold bucketOf. simpl.
    destruct (String.eqb_spec k k') as [->|N]; [contradiction|reflexivity].
Qed.

Lemma values_Permutation {V : Type} (o : JS.Object V) :
  Permutation (JS.values o) (map snd o).
Proof.
  unfold JS.values. apply Permutation_map, entries_Permutation.
Qed.

Lemma Grouped_bucket_In l g t k :
  Grouped l g -> In t l -> In k (map fst g) ->
  (In t (bucketOf g k) <-> k = dateOf t).
Proof.
  intros Hg Ht Hk. unfold bucketOf. split.
  - destruct (JS.getOwn g k) as [b|] eqn:E; [|contradiction].
    intros Hin. symmetry. exact (grouped_date _ _ Hg _ _ _ E Hin).
  - intros ->. destruct (grouped_mem _ _ Hg t Ht) as (b & -> & Hin).
    exact Hin.
Qed.

Lemma Grouped_has_key l g t :
  Grouped l g -> In t l -> In (dateOf t) (map fst g).
Proof.
  intros Hg Ht. destruct (grouped_mem _ _ Hg t Ht) as (b & E & _).
  now apply getOwn_Some_key in E.
Qed.

Lemma Grouped_partitions l g : Grouped l g -> partitionsByDate l g.
Proof.
  intros Hg. split; [|split; [|split]].
  - apply keys_NoDup, (grouped_NoDup _ _ Hg).
  - intros t Ht. rewrite In_keys. now apply (Grouped_has_key l).
  - intros t k Ht Hk. rewrite In_keys in Hk.
    now apply (Grouped_bucket_In l).
  - rewrite values_Permutation. apply (grouped_perm _ _ Hg).
Qed.

Lemma sorted_partitions l g :
  Grouped l g ->
  partitionsByDate l (map (sortedBucket g) (sortedDates g)).
Proof.
  intros Hg.
  assert (Hk : forall k, In k (JS.keys (map (sortedBucket g) (sortedDates g)))
                         <-> In k (map fst g)).
  { intros k. rewrite In_keys, map_fst_sortedBucket. apply sortedDates_In. }
  assert (Hb : forall k, In k (map fst g) ->
             bucketOf (map (sortedBucket g) (sortedDates g)) k
             = JS.sort byTimeDescending (bucketOf g k)).
  { intros k Hin. apply sortedDates_In in Hin.
    apply (bucketOf_map_key
             (fun d => JS.sort byTimeDescending (bucketOf g d))). exact Hin. }
  split; [|split; [|split]].
  - apply keys_NoDup. rewrite map_fst_sortedBucket.
    apply (Permutation_NoDup (Permutation_sym (sortedDates_Permutation g))).
    apply (grouped_NoDup _ _ Hg).
  - intros t Ht. rewrite Hk. now apply (Grouped_has_key l).
  - intros t k Ht Hin. rewrite Hk in Hin. rewrite (Hb k Hin), sort_In.
    now apply (Grouped_bucket_In l).
  - rewrite values_Permutation. unfold sortedBucket. rewrite map_map. simpl.
    rewrite (Permutation_concat_map
               (fun d => JS.sort byTimeDescending (bucketOf g d))
               (bucketOf g)) by (intros; apply sort_Permutation).
    rewrite (Permutation_concat _ _
               (Permutation_map (bucketOf g) (sortedDates_Permutation g))).
    rewrite (map_bucketOf_keys g (grouped_NoDup _ _ Hg)).
    apply (grouped_perm _ _ Hg).
Qed.

End Partition.

Section DefaultDate.

Lemma sortedDates_head l g :
  Grouped l g -> Forall (fun t => validToken t = true) l -> l <> [] ->
  exists d, nth_error (sortedDates g) 0 = Some d /\ greatestDate l d.
Proof.
  intros Hg Hv Hne.
  assert (Hkeys : Forall dateKey (JS.keys g)).
  { apply Forall_forall. intros k Hk. rewrite In_keys in Hk.
    now apply (Grouped_dateKey l g). }
  pose proof (sort_dates_descending (JS.keys g)
                (keys_NoDup g (grouped_NoDup _ _ Hg)) Hkeys) as Hs.
  fold (sortedDates g) in Hs.
  assert (Hin : forall t, In t l -> In (dateOf t) (sortedDates g)).
  { intros t Ht. apply sortedDates_In. now apply (Grouped_has_key l). }
  destruct (sortedDates g) as [|d rest] eqn:E.
  - destruct l as [|t l]; [congruence|]. destruct (Hin t (or_introl eq_refl)).
  - exists d. split; [reflexivity|].
    assert (Hd : In d (map fst g)).
    { apply sortedDates_In. rewrite E. now left. }
    split.
    + destruct (grouped_key _ _ Hg d Hd) as (t & Ht & <-). now apply in_map.
    + intros t Ht. inversion Hs as [|? ? _ Hall]; subst.
      destruct (Hin t Ht) as [<-|Hr].
      * rewrite (dateKey_number d (Grouped_dateKey l g d Hg Hv Hd)).
        simpl. lia.
      * rewrite Forall_forall in Hall. specialize (Hall _ Hr).
        unfold above in Hall. unfold atLeast.
        destruct (dateNumber d), (dateNumber (dateOf t)); try contradiction.
        lia.
Qed.

Lemma arrayIndex_dateKey k :
  dateKey k -> yearFrom1000 k = true -> JS.arrayIndex k = Some (decimal k).
Proof.
  intros [D L] Y. destruct k as [|c r]; [discriminate|].
  unfold JS.arrayIndex. rewrite D. simpl in Y. rewrite Y. simpl andb.
  cbv iota. rewrite (readDigits_fresh c r D).
  pose proof (decimal_range _ D) as R. rewrite L in R.
  change (10 ^ Z.of_nat 8)%Z with 100000000%Z in R.
  destruct (decimal (String c r) <? 4294967295)%Z eqn:B; [reflexivity|].
  apply Z.ltb_ge in B. lia.
Qed.

Lemma filter_all {X : Type} (p : X -> bool) l :
  (forall x, In x l -> p x = true) ->
  filter p l = l /\ filter (fun x => negb (p x)) l = [].
Proof.
  induction l as [|x l IH]; intros H; simpl; [split; reflexivity|].
  rewrite (H x (or_introl eq_refl)). simpl.
  destruct IH as [-> ->]; [|split; reflexivity].
  intros y Hy. apply H. now right.
Qed.

(** When every key is an array index, [Object.keys] is in ascending
    numeric order. *)
Lemma keys_ascending {V : Type} (o : JS.Object V) :
  (forall p, In p o -> JS.isArrayIndex (fst p) = true) ->
  exists sorted,
    JS.entries o = sorted
    /\ Permutation sorted o
    /\ StronglySorted (fun p q => (JS.indexOf p <= JS.indexOf q)%Z) sorted.
Proof.
  intros H. unfold JS.entries.
  destruct (filter_all (fun p : string * V => JS.isArrayIndex (fst p)) o H)
    as [-> ->].
  rewrite app_nil_r. eexists. split; [reflexivity|]. split.
  - apply sort_Permutation.
  - apply sort_sorted. intros x y _ _. reflexivity.
Qed.

Lemma yearFrom1000_dateOf t :
  yearFrom1000 (dateOf t) = yearFrom1000 t.
Proof. destruct t; reflexivity. Qed.

Lemma keys_head l g :
  Grouped l g -> Forall (fun t => validToken t = true) l ->
  Forall (fun t => yearFrom1000 t = true) l -> l <> [] ->
  exists d, nth_error (JS.keys g) 0 = Some d /\ leastDate l d.
Proof.
  intros Hg Hv Hy Hne. rewrite Forall_forall in Hy.
  assert (Hidx : forall k, In k (map fst g) ->
                           JS.arrayIndex k = Some (decimal k)).
  { intros k Hk. apply arrayIndex_dateKey.
    - now apply (Grouped_dateKey l g).
    - destruct (grouped_key _ _ Hg k Hk) as (t & Ht & <-).
      rewrite yearFrom1000_dateOf. now apply Hy. }
  destruct (keys_ascending g) as (sorted & E & Hp & Hs).
  { intros p Hp. unfold JS.isArrayIndex.
    now rewrite (Hidx (fst p) (in_map fst _ _ Hp)). }
  assert (Hin : forall t, In t l -> In (dateOf t) (map fst sorted)).
  { intros t Ht. apply (Permutation_in _ (Permutation_sym
                                            (Permutation_map fst Hp))).
    now apply (Grouped_has_key l). }
  unfold JS.keys. rewrite E.
  destruct sorted as [|[d b] rest].
  - destruct l as [|t l]; [congruence|]. destruct (Hin t (or_introl eq_refl)).
  - exists d. split; [reflexivity|].
    assert (Hd : In d (map fst g)).
    { apply (Permutation_in _ (Permutation_map fst Hp)). now left. }
    split.
    + destruct (grouped_key _ _ Hg d Hd) as (t & Ht & <-). now apply in_map.
    + intros t Ht. inversion Hs as [|? ? _ Hall]; subst.
      pose proof (Grouped_has_key l g t Hg Ht) as Hk.
      rewrite (dateKey_number d (Grouped_dateKey l g d Hg Hv Hd)).
      rewrite (dateKey_number _ (Grouped_dateKey l g _ Hg Hv Hk)).
      simpl. destruct (Hin t Ht) as [Et|Hr].
      * simpl in Et. rewrite Et. lia.
      * apply in_map_iff in Hr as ([k' b'] & Ek & Hr). simpl in Ek. subst k'.
        rewrite Forall_forall in Hall. specialize (Hall _ Hr).
        unfold JS.indexOf in Hall. simpl in Hall.
        rewrite (Hidx d Hd), (Hidx _ Hk) in Hall. lia.
Qed.

End DefaultDate.

(** * Numbers *)

Section Numbers.

Lemma finite_leb m1 e1 m2 e2 :
  SFleb (S754_finite false m1 e1) (S754_finite false m2 e2) = true
  <-> (e1 < e2)%Z \/ (e1 = e2 /\ (m1 <= m2)%positive).
Proof.
  unfold SFleb, SFcompare.
  change (Pos.compare_cont Eq m1 m2) with (m1 ?= m2)%positive.
  destruct (Z.compare_spec e1 e2) as [E|E|E].
  - destruct (Pos.compare_spec m1 m2) as [M|M|M]; split; intros H;
      try discriminate; try (right; split; [assumption|lia]); try reflexivity.
    destruct H as [H|[_ H]]; lia.
  - split; [intros _; now left | reflexivity].
  - split; [discriminate | intros [H|[H _]]; lia].
Qed.

Lemma geq_trans m e (p1 p2 : number) :
  geq p1 (S754_finite false m e) = true -> geq p2 p1 = true ->
  geq p2 (S754_finite false m e) = true.
Proof.
  unfold geq. intros H1 H2.
  destruct p1 as [s1|s1| |s1 m1 e1]; try destruct s1; try discriminate H1;
    destruct p2 as [s2|s2| |s2 m2 e2]; try destruct s2; try discriminate H2;
    try reflexivity.
  apply finite_leb. apply finite_leb in H1, H2. lia.
Qed.

Lemma less_negb_geq m e (p : number) :
  p <> S754_nan ->
  less p (S754_finite false m e) = negb (geq p (S754_finite false m e)).
Proof.
  intros N. unfold less, geq, SFltb, SFleb.
  destruct p as [s|s| |s m1 e1]; try destruct s; try congruence;
    try reflexivity.
  unfold SFcompare.
  change (Pos.compare_cont Eq m1 m) with (m1 ?= m)%positive.
  change (Pos.compare_cont Eq m m1) with (m ?= m1)%positive.
  rewrite (Z.compare_antisym e1 e), (Pos.compare_antisym m1 m).
  destruct (e1 ?= e)%Z; simpl; try reflexivity.
  now destruct (m1 ?= m)%positive.
Qed.

End Numbers.

Section Fetch.

Lemma nth_error_last {X : Type} (front : list X) x :
  nth_error (front ++ [x]) (List.length (front ++ [x]) - 1) = Some x.
Proof.
  rewrite length_app. simpl.
  replace (List.length front + 1 - 1)%nat with (List.length front) by lia.
  rewrite nth_error_app2 by lia. now rewrite Nat.sub_diag.
Qed.

Lemma length_last_positive {X : Type} (front : list X) x :
  (0 <? List.length (front ++ [x]))%nat = true.
Proof. apply Nat.ltb_lt. rewrite length_app. simpl. lia. Qed.

End Fetch.

Section Formatting.

Lemma substring_whole s :
  forall m, (String.length s <= m)%nat -> String.substring 0 m s = s.
Proof.
  induction s as [|c s IH]; intros [|m] H; simpl in *;
    try reflexivity; try lia.
  f_equal. apply IH. lia.
Qed.

Lemma substring_beyond s :
  forall n m, (String.length s <= n)%nat -> String.substring n m s = "".
Proof.
  induction s as [|c s IH]; intros [|n] [|m] H; simpl in *;
    try reflexivity; try lia; apply IH; lia.
Qed.

Lemma dateOf_short t : (String.length t <= 8)%nat -> dateOf t = t.
Proof. intros H. unfold dateOf, JS.substring. simpl. now apply substring_whole. Qed.

Lemma formatTime_short t :
  (String.length t <= 4)%nat -> formatTime t = (t ++ "-- : UTC")%string.
Proof.
  intros H. unfold formatTime, JS.substring. simpl Nat.min. simpl Nat.max.
  simpl Nat.sub.
  rewrite (substring_whole t 4 H).
  rewrite !substring_beyond by lia. reflexivity.
Qed.

End Formatting.

(** * Checks on the model *)

(** The three thresholds are binary64 values, each within half a unit in
    the last place of the decimal it is written as. *)
Example literals_are_doubles :
  valid_binary 53 1024 lit_0_8 = true
  /\ valid_binary 53 1024 lit_0_6 = true
  /\ valid_binary 53 1024 lit_0_4 = true
  /\ (Z.abs (10 * 7205759403792794 - 8 * 2 ^ 53) <= 5)%Z
  /\ (Z.abs (10 * 5404319552844595 - 6 * 2 ^ 53) <= 5)%Z
  /\ (Z.abs (10 * 7205759403792794 - 4 * 2 ^ 54) <= 5)%Z.
Proof. repeat split; vm_compute; congruence. Qed.

(** No product id is the name of an inherited property, so reading
    [response.data[productId]] finds an own property or nothing. *)
Example product_ids_are_own_names :
  Forall (fun layer => JS.inherited (gridLayer layer) = false)
         AVAILABLE_LAYERS.
Proof. repeat constructor. Qed.

(** A token whose first eight characters name an inherited property makes
    the effect throw. *)
Example inherited_name_throws :
  Index.groupingEffect (withTimes ["toString.000000"])
  = Throw (TypeError "acc[date].push is not a function").
Proof. reflexivity. Qed.

(** The time of day is read from index 9: of two twelve-digit tokens the
    one of 06:00 is put before the one of 10:00. *)
Example time_is_read_from_index_9 :
  exists s',
    Part000.groupingEffect (withTimes ["202401011000"; "202401010600"])
    = Ok s'
    /\ JS.getOwn (groupedTimes s') "20240101"
       = Some ["202401010600"; "202401011000"].
Proof. eexists. split; vm_compute; reflexivity. Qed.

(** The server's format and the twelve digits of the worked example are
    both valid; a bare year is not. *)
Example validToken_examples :
  map validToken ["20240101.063000"; "202401010600"; "2024"; ""]
  = [true; true; false; false].
Proof. reflexivity. Qed.

Example parseInt_examples :
  map JS.parseInt ["20240102"; "063000"; " -12ab"; "0x1F"; "abc"; ""]
  = [Some 20240102%Z; Some 63000%Z; Some (-12)%Z; Some 31%Z; None; None].
Proof. reflexivity. Qed.

Example formatTime_example :
  formatTime "20240101.063000" = "2024-01-01 06:30 UTC".
Proof. reflexivity. Qed.

Lemma valid_not_inherited times :
  Forall (fun t => validToken t = true) times ->
  forall t, In t times -> JS.inherited (dateOf t) = false.
Proof.
  intros H t Ht. rewrite Forall_forall in H.
  now apply validToken_not_inherited, H.
Qed.

(** * Properties of the time index *)

(** C1, as the sorting screens have it.  For every non-empty list of
    valid tokens, the effect of part_000 and part_002 computes the date
    list [sortedDates] in strictly descending date order, the picker lists
    the keys of the mapping in that same descending order (it sorts
    [Object.keys] again), and every bucket of the mapping is ordered by
    descending time of day, the number read from index 9 on. *)
Theorem sorting_screens_order_descending (s : State) :
  availableTimes s <> [] ->
  Forall (fun t => validToken t = true) (availableTimes s) ->
  exists g s',
    grouped (availableTimes s) = Ok g
    /\ Part000.groupingEffect s = Ok s'
    /\ Part002.groupingEffect s = Ok s'
    /\ datesDescending (sortedDates g)
    /\ datesDescending (Part000.listedDates s')
    /\ datesDescending (Part002.listedDates s')
    /\ (forall date bucket,
          JS.getOwn (groupedTimes s') date = Some bucket ->
          timesDescending bucket)
    /\ Forall timesDescending (JS.values (groupedTimes s')).
Proof.
  intros Hne Hv.
  destruct (sortingEffect_Grouped s (valid_not_inherited _ Hv) Hne)
    as (g & Eg & Hg & Es).
  assert (Hbucket : forall date bucket,
             JS.getOwn (map (sortedBucket g) (sortedDates g)) date
             = Some bucket -> timesDescending bucket).
  { intros date bucket Hb. unfold sortedBucket in Hb.
    rewrite (getOwn_map_key
               (fun d => JS.sort byTimeDescending (bucketOf g d))) in Hb.
    destruct (in_dec string_dec date (sortedDates g)) as [Hin|];
      [|discriminate].
    injection Hb as <-. apply sort_times_descending.
    unfold bucketOf. destruct (JS.getOwn g date) as [b|] eqn:E.
    - now apply (Grouped_bucket_valid _ g date b Hg).
    - constructor. }
  assert (Hlisted : datesDescending
                      (JS.sort byDateDescending
                         (JS.keys (map (sortedBucket g) (sortedDates g))))).
  { apply sort_dates_descending.
    - apply keys_NoDup. rewrite map_fst_sortedBucket.
      apply (Permutation_NoDup
               (Permutation_sym (sortedDates_Permutation g))).
      apply (grouped_NoDup _ _ Hg).
    - apply Forall_forall. intros k Hk.
      rewrite In_keys, map_fst_sortedBucket, sortedDates_In in Hk.
      now apply (Grouped_dateKey _ g k Hg). }
  exists g. eexists. split; [exact Eg|]. split; [exact Es|].
  split; [exact Es|]. split; [|split; [|split; [|split]]].
  - apply sort_dates_descending.
    + apply keys_NoDup, (grouped_NoDup _ _ Hg).
    + apply Forall_forall. intros k Hk. rewrite In_keys in Hk.
      now apply (Grouped_dateKey _ g k Hg).
  - exact Hlisted.
  - exact Hlisted.
  - exact Hbucket.
  - apply Forall_forall. intros bucket Hb. simpl in Hb.
    apply (Permutation_in _ (values_Permutation _)) in Hb.
    apply in_map_iff in Hb as ([k b] & Eb & Hin). simpl in Eb. subst b.
    apply (Hbucket k). apply In_getOwn; [|assumption].
    rewrite map_fst_sortedBucket.
    apply (Permutation_NoDup (Permutation_sym (sortedDates_Permutation g))).
    apply (grouped_NoDup _ _ Hg).
Qed.

Lemma sorting_screens_order_descending_witness :
  exists g s',
    grouped (availableTimes (withTimes twoDays)) = Ok g
    /\ Part000.groupingEffect (withTimes twoDays) = Ok s'
    /\ Part002.groupingEffect (withTimes twoDays) = Ok s'
    /\ datesDescending (sortedDates g)
    /\ datesDescending (Part000.listedDates s')
    /\ datesDescending (Part002.listedDates s')
    /\ (forall date bucket,
          JS.getOwn (groupedTimes s') date = Some bucket ->
          timesDescending bucket)
    /\ Forall timesDescending (JS.values (groupedTimes s')).
Proof.
  apply (sorting_screens_order_descending (withTimes twoDays)).
  - discriminate.
  - repeat constructor.
Defined.

(** C1 as stated fails: on two tokens of two days, in ascending order as
    the server sends them, both kinds of screen build a mapping whose keys
    [Object.keys] lists in ascending date order. *)
Lemma index_keys_listed_ascending :
  twoDays <> []
  /\ Forall (fun t => validToken t = true) twoDays
  /\ (exists s', Part000.groupingEffect (withTimes twoDays) = Ok s'
                 /\ JS.keys (groupedTimes s') = ["20240101"; "20240102"]
                 /\ ~ indexDescending (groupedTimes s'))
  /\ (exists s', Index.groupingEffect (withTimes twoDays) = Ok s'
                 /\ JS.keys (groupedTimes s') = ["20240101"; "20240102"]
                 /\ ~ indexDescending (groupedTimes s')).
Proof.
  assert (N : forall m : JS.Object (list string),
             JS.keys m = ["20240101"; "20240102"] -> ~ indexDescending m).
  { intros m K [H _]. rewrite K in H.
    inversion H as [|? ? _ Hall]; subst.
    inversion Hall as [|? ? Hab _]; subst.
    vm_compute in Hab. discriminate Hab. }
  split; [discriminate|]. split; [repeat constructor|].
  split; eexists; (split; [vm_compute; reflexivity|]);
    (split; [reflexivity | apply N; reflexivity]).
Qed.

(** C2, as the code has it.  For every non-empty list of valid tokens the
    sorting screens select [sortedDates[0]], the numerically greatest date
    key of the input.  The screens that do not sort select
    [Object.keys(grouped)[0]]; when no year has a leading zero that is
    the numerically least date key. *)
Theorem default_date_by_screen (s : State) :
  availableTimes s <> [] ->
  Forall (fun t => validToken t = true) (availableTimes s) ->
  (exists s' d,
      Part000.groupingEffect s = Ok s'
      /\ Part002.groupingEffect s = Ok s'
      /\ selectedDate s' = Some d
      /\ greatestDate (availableTimes s) d)
  /\ (exists g s',
         grouped (availableTimes s) = Ok g
         /\ Index.groupingEffect s = Ok s'
         /\ selectedDate s' = nth_error (JS.keys g) 0
         /\ (Forall (fun t => yearFrom1000 t = true) (availableTimes s) ->
             exists d, selectedDate s' = Some d
                       /\ leastDate (availableTimes s) d)).
Proof.
  intros Hne Hv. split.
  - destruct (sortingEffect_Grouped s (valid_not_inherited _ Hv) Hne)
      as (g & Eg & Hg & Es).
    destruct (sortedDates_head _ g Hg Hv Hne) as (d & Ed & Hd).
    eexists. exists d. split; [exact Es|]. split; [exact Es|].
    split; [exact Ed | exact Hd].
  - destruct (indexEffect_Grouped s (valid_not_inherited _ Hv) Hne)
      as (g & Eg & Hg & Es).
    exists g. eexists. split; [exact Eg|]. split; [exact Es|].
    split; [reflexivity|]. intros Hy.
    destruct (keys_head _ g Hg Hv Hy Hne) as (d & Ed & Hd).
    exists d. split; [exact Ed | exact Hd].
Qed.

Lemma default_date_by_screen_witness :
  (exists s' d,
      Part000.groupingEffect (withTimes twoDays) = Ok s'
      /\ Part002.groupingEffect (withTimes twoDays) = Ok s'
      /\ selectedDate s' = Some d
      /\ greatestDate (availableTimes (withTimes twoDays)) d)
  /\ (exists g s',
         grouped (availableTimes (withTimes twoDays)) = Ok g
         /\ Index.groupingEffect (withTimes twoDays) = Ok s'
         /\ selectedDate s' = nth_error (JS.keys g) 0
         /\ (Forall (fun t => yearFrom1000 t = true)
                    (availableTimes (withTimes twoDays)) ->
             exists d, selectedDate s' = Some d
                       /\ leastDate (availableTimes (withTimes twoDays)) d)).
Proof.
  apply (default_date_by_screen (withTimes twoDays)).
  - discriminate.
  - repeat constructor.
Defined.

(** C2 as stated fails on index.tsx: of two days it selects the earlier
    one. *)
Lemma index_selects_earliest_date :
  twoDays <> []
  /\ Forall (fun t => validToken t = true) twoDays
  /\ exists s',
       Index.groupingEffect (withTimes twoDays) = Ok s'
       /\ selectedDate s' = Some "20240101"
       /\ ~ greatestDate twoDays "20240101".
Proof.
  split; [discriminate|]. split; [repeat constructor|].
  eexists. split; [vm_compute; reflexivity|]. split; [reflexivity|].
  intros [_ H]. specialize (H "20240102.000000" (or_intror (or_introl eq_refl))).
  vm_compute in H. now apply H.
Qed.

(** C3.  For every non-empty list of valid tokens, in the mapping either
    kind of screen builds, the keys are distinct, every token of the input
    lies in the bucket keyed by its first eight characters and in no
    other, and the buckets together are a permutation of the input.  The
    mapping depends on the list alone: a state with another earlier
    mapping and the same list gets the same mapping. *)
Theorem every_token_in_exactly_one_bucket (s : State) :
  availableTimes s <> [] ->
  Forall (fun t => validToken t = true) (availableTimes s) ->
  exists s1 s2,
    Index.groupingEffect s = Ok s1
    /\ Part000.groupingEffect s = Ok s2
    /\ Part002.groupingEffect s = Ok s2
    /\ partitionsByDate (availableTimes s) (groupedTimes s1)
    /\ partitionsByDate (availableTimes s) (groupedTimes s2)
    /\ forall r,
         availableTimes r = availableTimes s ->
         exists r1 r2,
           Index.groupingEffect r = Ok r1
           /\ Part000.groupingEffect r = Ok r2
           /\ Part002.groupingEffect r = Ok r2
           /\ groupedTimes r1 = groupedTimes s1
           /\ groupedTimes r2 = groupedTimes s2.
Proof.
  intros Hne Hv.
  pose proof (valid_not_inherited _ Hv) as Hinh.
  destruct (indexEffect_Grouped s Hinh Hne) as (g & Eg & Hg & E1).
  destruct (sortingEffect_Grouped s Hinh Hne) as (g' & Eg' & _ & E2).
  assert (g' = g) as -> by congruence.
  eexists. eexists. split; [exact E1|]. split; [exact E2|].
  split; [exact E2|]. split; [|split].
  - now apply Grouped_partitions.
  - now apply sorted_partitions.
  - intros r Er. rewrite <- Er in Hinh, Hne.
    destruct (indexEffect_Grouped r Hinh Hne) as (h & Eh & _ & R1).
    destruct (sortingEffect_Grouped r Hinh Hne) as (h' & Eh' & _ & R2).
    rewrite Er in Eh, Eh'.
    assert (h = g) as -> by congruence. assert (h' = g) as -> by congruence.
    eexists. eexists. split; [exact R1|]. split; [exact R2|].
    split; [exact R2|]. split; reflexivity.
Qed.

Lemma every_token_in_exactly_one_bucket_witness :
  exists s1 s2,
    Index.groupingEffect (withTimes workedExample) = Ok s1
    /\ Part000.groupingEffect (withTimes workedExample) = Ok s2
    /\ Part002.groupingEffect (withTimes workedExample) = Ok s2
    /\ partitionsByDate (availableTimes (withTimes workedExample))
                        (groupedTimes s1)
    /\ partitionsByDate (availableTimes (withTimes workedExample))
                        (groupedTimes s2)
    /\ forall r,
         availableTimes r = availableTimes (withTimes workedExample) ->
         exists r1 r2,
           Index.groupingEffect r = Ok r1
           /\ Part000.groupingEffect r = Ok r2
           /\ Part002.groupingEffect r = Ok r2
           /\ groupedTimes r1 = groupedTimes s1
           /\ groupedTimes r2 = groupedTimes s2.
Proof.
  apply (every_token_in_exactly_one_bucket (withTimes workedExample)).
  - discriminate.
  - repeat constructor.
Defined.

(** C9.  For every list of valid tokens the screens that sort and the
    screens that do not build mappings with the same keys, and under each
    key the two buckets hold the same tokens, each as often. *)
Theorem variants_agree_up_to_order (s : State) :
  Forall (fun t => validToken t = true) (availableTimes s) ->
  exists s1 s2,
    Index.groupingEffect s = Ok s1
    /\ Part000.groupingEffect s = Ok s2
    /\ Part002.groupingEffect s = Ok s2
    /\ (forall k, In k (JS.keys (groupedTimes s1))
                  <-> In k (JS.keys (groupedTimes s2)))
    /\ (forall k, Permutation (bucketOf (groupedTimes s1) k)
                              (bucketOf (groupedTimes s2) k)).
Proof.
  intros Hv. destruct (availableTimes s) as [|t ts] eqn:Et.
  - exists s, s. unfold_effects. rewrite Et. simpl.
    repeat split; auto.
  - rewrite <- Et in Hv.
    assert (Hne : availableTimes s <> []) by (rewrite Et; discriminate).
    pose proof (valid_not_inherited _ Hv) as Hinh.
    destruct (indexEffect_Grouped s Hinh Hne) as (g & Eg & Hg & E1).
    destruct (sortingEffect_Grouped s Hinh Hne) as (g' & Eg' & _ & E2).
    assert (g' = g) as -> by congruence.
    eexists. eexists. split; [exact E1|]. split; [exact E2|].
    split; [exact E2|]. simpl. split.
    + intros k. rewrite !In_keys, map_fst_sortedBucket.
      symmetry. apply sortedDates_In.
    + intros k. destruct (in_dec string_dec k (sortedDates g)) as [Hin|Hn].
      * unfold sortedBucket.
        rewrite (bucketOf_map_key
                   (fun d => JS.sort byTimeDescending (bucketOf g d)))
          by exact Hin.
        apply Permutation_sym, sort_Permutation.
      * unfold bucketOf at 2. unfold sortedBucket.
        rewrite (getOwn_map_key
                   (fun d => JS.sort byTimeDescending (bucketOf g d))).
        destruct (in_dec string_dec k (sortedDates g)); [contradiction|].
        unfold bucketOf. destruct (JS.getOwn g k) eqn:E; [|constructor].
        exfalso. apply Hn. apply sortedDates_In.
        now apply getOwn_Some_key in E.
Qed.

Lemma variants_agree_up_to_order_witness :
  exists s1 s2,
    Index.groupingEffect (withTimes workedExample) = Ok s1
    /\ Part000.groupingEffect (withTimes workedExample) = Ok s2
    /\ Part002.groupingEffect (withTimes workedExample) = Ok s2
    /\ (forall k, In k (JS.keys (groupedTimes s1))
                  <-> In k (JS.keys (groupedTimes s2)))
    /\ (forall k, Permutation (bucketOf (groupedTimes s1) k)
                              (bucketOf (groupedTimes s2) k)).
Proof.
  apply (variants_agree_up_to_order (withTimes workedExample)).
  repeat constructor.
Defined.

(** C4, as the sorting screens have it.  On the three tokens of the
    example, the effect of part_000 and part_002 files ["202401020000"]
    under "20240102" and ["202401010600"; "202401010000"] under "20240101",
    computes and lists the dates as "20240102", "20240101", and selects
    "20240102"; [Object.keys] of the mapping itself gives "20240101"
    first. *)
Theorem worked_example_on_sorting_screens :
  exists g s',
    grouped workedExample = Ok g
    /\ Part000.groupingEffect (withTimes workedExample) = Ok s'
    /\ Part002.groupingEffect (withTimes workedExample) = Ok s'
    /\ JS.getOwn (groupedTimes s') "20240102" = Some ["202401020000"]
    /\ JS.getOwn (groupedTimes s') "20240101"
       = Some ["202401010600"; "202401010000"]
    /\ JS.keys (groupedTimes s') = ["20240101"; "20240102"]
    /\ sortedDates g = ["20240102"; "20240101"]
    /\ Part000.listedDates s' = ["20240102"; "20240101"]
    /\ Part002.listedDates s' = ["20240102"; "20240101"]
    /\ selectedDate s' = Some "20240102".
Proof.
  eexists. eexists. split; [vm_compute; reflexivity|].
  split; [vm_compute; reflexivity|].
  repeat split; vm_compute; reflexivity.
Qed.

(** C4 as stated fails.  On the sorting screens the mapping lists
    "20240101" before "20240102"; index.tsx keeps the input order inside
    the bucket and selects "20240101". *)
Lemma worked_example_differs :
  (exists s',
      Part000.groupingEffect (withTimes workedExample) = Ok s'
      /\ JS.entries (groupedTimes s')
         <> [("20240102", ["202401020000"]);
             ("20240101", ["202401010600"; "202401010000"])])
  /\ (exists s',
         Index.groupingEffect (withTimes workedExample) = Ok s'
         /\ JS.entries (groupedTimes s')
            <> [("20240102", ["202401020000"]);
                ("20240101", ["202401010600"; "202401010000"])]
         /\ JS.getOwn (groupedTimes s') "20240101"
            <> Some ["202401010600"; "202401010000"]
         /\ selectedDate s' <> Some "20240102").
Proof.
  split; eexists; (split; [vm_compute; reflexivity|]);
    repeat split; vm_compute; discriminate.
Qed.

(** C5.  When the response holds a non-empty list for the product,
    [fetchTimes] of every screen stores the list and selects its last
    token. *)
Theorem default_time_is_last_token
  (s : State) (d : JS.Object (list string)) (times : list string)
  (fetchTimes : AxiosOutcome -> State -> State) :
  In fetchTimes [Index.fetchTimes; Part000.fetchTimes; Part002.fetchTimes] ->
  JS.getOwn d (gridLayer (selectedLayer s)) = Some times ->
  times <> [] ->
  availableTimes (fetchTimes (Response (Some d)) s) = times
  /\ exists front,
       times = front ++ [selectedTime (fetchTimes (Response (Some d)) s)].
Proof.
  intros Hf Hd Hne.
  destruct (exists_last Hne) as (front & x & ->).
  pose proof (nth_error_last front x) as L.
  pose proof (length_last_positive front x) as P.
  each_screen Hf;
    [unfold Index.fetchTimes, Index.fetchTimesBody
    |unfold Part000.fetchTimes, Part000.fetchTimesBody
    |unfold Part002.fetchTimes, Part002.fetchTimesBody];
    simpl bind; rewrite Hd, P, L; simpl;
    (split; [reflexivity | exists front; reflexivity]).
Qed.

Lemma default_time_is_last_token_witness :
  availableTimes
    (Index.fetchTimes
       (Response (Some [("turb-grid-30-31-kft", workedExample)])) initialState)
  = workedExample
  /\ exists front,
       workedExample
       = front ++
         [selectedTime
            (Index.fetchTimes
               (Response (Some [("turb-grid-30-31-kft", workedExample)]))
               initialState)].
Proof.
  apply (default_time_is_last_token initialState
           [("turb-grid-30-31-kft", workedExample)] workedExample).
  - simpl. left. reflexivity.
  - reflexivity.
  - discriminate.
Defined.

(** C6, as the code has it.  On an empty list the grouping effect of
    every screen assigns nothing and returns the state as it is: the
    mapping, the selected date and the selected time keep their values,
    so a mapping that is empty stays empty.  The mapping is empty and no
    date is selected at start-up and after the reset that follows a change
    of layer. *)
Theorem empty_list_selects_nothing
  (s : State) (effect : State -> result State) :
  In effect
     [Index.groupingEffect; Part000.groupingEffect; Part002.groupingEffect] ->
  availableTimes s = [] ->
  effect s = Ok s
  /\ (groupedTimes s = JS.empty ->
      exists s', effect s = Ok s'
                 /\ groupedTimes s' = JS.empty
                 /\ JS.keys (groupedTimes s') = []
                 /\ selectedDate s' = selectedDate s
                 /\ selectedTime s' = selectedTime s)
  /\ effect initialState = Ok initialState
  /\ effect (resetEffect s) = Ok (resetEffect s)
  /\ groupedTimes (resetEffect s) = JS.empty
  /\ selectedDate (resetEffect s) = None
  /\ groupedTimes initialState = JS.empty
  /\ selectedDate initialState = None
  /\ selectedTime initialState = ""
  /\ forall r,
       effect (resetEffect r) = Ok (resetEffect r)
       /\ groupedTimes (resetEffect r) = JS.empty
       /\ selectedDate (resetEffect r) = None.
Proof.
  intros Hf He.
  assert (E : effect s = Ok s /\ effect initialState = Ok initialState
              /\ forall r, effect (resetEffect r) = Ok (resetEffect r)).
  { each_screen Hf; unfold_effects; rewrite He; repeat split; reflexivity. }
  destruct E as (E1 & E2 & E3).
  split; [exact E1|]. split.
  - intros Hg. exists s. rewrite Hg. repeat split; assumption.
  - repeat split; try assumption; apply E3.
Qed.

Lemma empty_list_selects_nothing_witness :
  Index.groupingEffect workedStale = Ok workedStale
  /\ (groupedTimes workedStale = JS.empty ->
      exists s', Index.groupingEffect workedStale = Ok s'
                 /\ groupedTimes s' = JS.empty
                 /\ JS.keys (groupedTimes s') = []
                 /\ selectedDate s' = selectedDate workedStale
                 /\ selectedTime s' = selectedTime workedStale)
  /\ Index.groupingEffect initialState = Ok initialState
  /\ Index.groupingEffect (resetEffect workedStale)
     = Ok (resetEffect workedStale)
  /\ groupedTimes (resetEffect workedStale) = JS.empty
  /\ selectedDate (resetEffect workedStale) = None
  /\ groupedTimes initialState = JS.empty
  /\ selectedDate initialState = None
  /\ selectedTime initialState = ""
  /\ forall r,
       Index.groupingEffect (resetEffect r) = Ok (resetEffect r)
       /\ groupedTimes (resetEffect r) = JS.empty
       /\ selectedDate (resetEffect r) = None.
Proof.
  apply (empty_list_selects_nothing workedStale Index.groupingEffect).
  - simpl. left. reflexivity.
  - reflexivity.
Defined.

(** C6 as stated fails.  A later response can empty the list while the
    mapping of the earlier list is still in place: on index.tsx a response
    whose list is empty, on part_000 a response without a body.  The
    effect then finds an empty list and leaves the mapping with its two
    dates, the selected date and the selected time where they are. *)
Lemma stale_mapping_survives_empty_list :
  (reachable OnIndex workedStale
   /\ availableTimes workedStale = []
   /\ exists s',
        Index.groupingEffect workedStale = Ok s'
        /\ JS.keys (groupedTimes s') = ["20240101"; "20240102"]
        /\ selectedDate s' = Some "20240101"
        /\ selectedTime s' = "202401020000"
        /\ ~ nothingSelected s')
  /\ (reachable OnPart000 sortedStale
      /\ availableTimes sortedStale = []
      /\ exists s',
           Part000.groupingEffect sortedStale = Ok s'
           /\ JS.keys (groupedTimes s') = ["20240101"; "20240102"]
           /\ selectedDate s' = Some "20240102"
           /\ selectedTime s' = "202401020000"
           /\ ~ nothingSelected s').
Proof.
  split; (split; [|split; [reflexivity|]]).
  - apply (AfterEvent OnIndex workedGrouped).
    + apply (AfterEvent OnIndex workedArrived).
      * apply (AfterEvent OnIndex initialState);
          [apply AtStart | apply (TimesArrived OnIndex workedResponse)].
      * apply GroupingRan. vm_compute. reflexivity.
    + apply (TimesArrived OnIndex emptyListResponse).
  - exists workedStale. repeat split; try (vm_compute; reflexivity).
    intros [H _]. vm_compute in H. discriminate H.
  - apply (AfterEvent OnPart000 sortedGroupedState).
    + apply (AfterEvent OnPart000 sortedArrived).
      * apply (AfterEvent OnPart000 initialState);
          [apply AtStart | apply (TimesArrived OnPart000 workedResponse)].
      * apply GroupingRan. vm_compute. reflexivity.
    + apply (TimesArrived OnPart000 (Response None)).
  - exists sortedStale. repeat split; try (vm_compute; reflexivity).
    intros [H _]. vm_compute in H. discriminate H.
Qed.

(** C7, as the code has it.  Nothing validates a token.  Whatever the
    length of the tokens, the grouping effect of every screen succeeds as
    long as no date key names a property inherited from
    [Object.prototype]; a token of at most eight characters is its own
    date key and is filed under it; [formatTime] of a token of at most
    four characters is the token followed by empty fields. *)
Theorem short_tokens_are_truncated_silently (s : State) :
  (forall t, In t (availableTimes s) -> JS.inherited (dateOf t) = false) ->
  (exists s1 s2,
      Index.groupingEffect s = Ok s1
      /\ Part000.groupingEffect s = Ok s2
      /\ Part002.groupingEffect s = Ok s2)
  /\ (exists g,
         grouped (availableTimes s) = Ok g
         /\ forall t, In t (availableTimes s) ->
                      In t (bucketOf g (dateOf t))
                      /\ ((String.length t <= 8)%nat -> dateOf t = t))
  /\ (forall t, (String.length t <= 4)%nat ->
                formatTime t = (t ++ "-- : UTC")%string).
Proof.
  intros Hinh. split; [|split].
  - destruct (availableTimes s) as [|t ts] eqn:Et.
    + exists s, s. unfold_effects. rewrite Et. repeat split.
    + rewrite <- Et in Hinh.
      assert (Hne : availableTimes s <> []) by (rewrite Et; discriminate).
      destruct (indexEffect_Grouped s Hinh Hne) as (g & _ & _ & E1).
      destruct (sortingEffect_Grouped s Hinh Hne) as (g' & _ & _ & E2).
      eexists. eexists. split; [exact E1|]. split; exact E2.
  - destruct (grouped_Grouped _ Hinh) as (g & Eg & Hg).
    exists g. split; [exact Eg|]. intros t Ht. split.
    + destruct (grouped_mem _ _ Hg t Ht) as (b & Eb & Hin).
      unfold bucketOf. now rewrite Eb.
    + apply dateOf_short.
  - apply formatTime_short.
Qed.

Lemma short_tokens_are_truncated_silently_witness :
  (exists s1 s2,
      Index.groupingEffect (withTimes ["2024"]) = Ok s1
      /\ Part000.groupingEffect (withTimes ["2024"]) = Ok s2
      /\ Part002.groupingEffect (withTimes ["2024"]) = Ok s2)
  /\ (exists g,
         grouped (availableTimes (withTimes ["2024"])) = Ok g
         /\ forall t, In t (availableTimes (withTimes ["2024"])) ->
                      In t (bucketOf g (dateOf t))
                      /\ ((String.length t <= 8)%nat -> dateOf t = t))
  /\ (forall t, (String.length t <= 4)%nat ->
                formatTime t = (t ++ "-- : UTC")%string).
Proof.
  apply (short_tokens_are_truncated_silently (withTimes ["2024"])).
  intros t [<-|[]]. reflexivity.
Defined.

(** C7 as stated fails: the four-character token "2024" is grouped under
    itself and formatted, and nothing is raised. *)
Lemma short_token_raises_nothing :
  validToken "2024" = false
  /\ (String.length "2024" < 8)%nat
  /\ Index.groupingEffect (withTimes ["2024"])
     = Ok (setSelectedDate (Some "2024")
             (setGroupedTimes [("2024", ["2024"])] (withTimes ["2024"])))
  /\ Part000.groupingEffect (withTimes ["2024"])
     = Ok (setSelectedDate (Some "2024")
             (setGroupedTimes [("2024", ["2024"])] (withTimes ["2024"])))
  /\ (forall e, grouped ["2024"] <> Throw e)
  /\ formatTime "2024" = "2024-- : UTC".
Proof.
  repeat split; try (vm_compute; reflexivity).
  - vm_compute. lia.
  - intros e. vm_compute. discriminate.
Qed.

(** C8.  When the body of the response is missing or has no entry for the
    product, [fetchTimes] returns without raising; index.tsx and part_002
    leave the state as it is, part_000 writes a warning to the console and
    empties the list of times; no screen touches the selected time, the
    selected date, the mapping or the requests.  When the request is
    rejected, every screen writes the error to the console and changes
    nothing else. *)
Theorem malformed_response_is_no_data
  (s : State) (data : option (JS.Object (list string))) (e : Exception) :
  missingProduct s data ->
  Index.fetchTimes (Response data) s = s
  /\ Part002.fetchTimes (Response data) s = s
  /\ Part000.fetchTimes (Response data) s
     = setAvailableTimes []
         (consoleLog
            (ConsoleWarn "No times data available for the selected layer.")
            s)
  /\ forall fetchTimes,
       In fetchTimes
          [Index.fetchTimes; Part000.fetchTimes; Part002.fetchTimes] ->
       (availableTimes (fetchTimes (Response data) s) = availableTimes s
        \/ availableTimes (fetchTimes (Response data) s) = [])
       /\ selectedTime (fetchTimes (Response data) s) = selectedTime s
       /\ selectedDate (fetchTimes (Response data) s) = selectedDate s
       /\ groupedTimes (fetchTimes (Response data) s) = groupedTimes s
       /\ requests (fetchTimes (Response data) s) = requests s
       /\ fetchTimes (Rejected e) s
          = consoleLog (ConsoleError "Error fetching times:" e) s.
Proof.
  intros Hm.
  assert (E1 : Index.fetchTimes (Response data) s = s).
  { unfold Index.fetchTimes, Index.fetchTimesBody. simpl bind.
    destruct data as [d|]; [|reflexivity]. simpl in Hm. now rewrite Hm. }
  assert (E2 : Part002.fetchTimes (Response data) s = s).
  { unfold Part002.fetchTimes, Part002.fetchTimesBody. simpl bind.
    destruct data as [d|]; [|reflexivity]. simpl in Hm. now rewrite Hm. }
  assert (E0 : Part000.fetchTimes (Response data) s
               = setAvailableTimes []
                   (consoleLog
                      (ConsoleWarn
                         "No times data available for the selected layer.")
                      s)).
  { unfold Part000.fetchTimes, Part000.fetchTimesBody. simpl bind.
    destruct data as [d|]; [|reflexivity]. simpl in Hm. now rewrite Hm. }
  split; [exact E1|]. split; [exact E2|]. split; [exact E0|].
  intros f Hf. each_screen Hf.
  - rewrite E1. repeat split; auto.
  - rewrite E0. repeat split; auto.
  - rewrite E2. repeat split; auto.
Qed.

Lemma malformed_response_is_no_data_witness :
  Index.fetchTimes (Response (Some [("other-product", ["20240101.000000"])]))
                   initialState
  = initialState
  /\ Part000.fetchTimes (Rejected (NetworkFailure "timeout")) initialState
     = consoleLog
         (ConsoleError "Error fetching times:" (NetworkFailure "timeout"))
         initialState.
Proof.
  pose proof (malformed_response_is_no_data initialState
                (Some [("other-product", ["20240101.000000"])])
                (NetworkFailure "timeout")) as H.
  destruct H as (H1 & _ & _ & H4).
  - reflexivity.
  - split; [exact H1|].
    apply (H4 Part000.fetchTimes). simpl. right. left. reflexivity.
Defined.

(** C10.  For every number but NaN, [getPolygonColor] returns red at 0.8
    and above, orange from 0.6 up to 0.8, yellow from 0.4 up to 0.6 and
    green below 0.4; and a probability that is at least another never
    gets a colour of lower severity. *)
Theorem getPolygonColor_total_monotone :
  (forall p : number,
      p <> S754_nan ->
      (geq p lit_0_8 = true
       /\ getPolygonColor p = "rgba(255, 0, 0, 0.5)")
      \/ (geq p lit_0_6 = true /\ less p lit_0_8 = true
          /\ getPolygonColor p = "rgba(255, 165, 0, 0.5)")
      \/ (geq p lit_0_4 = true /\ less p lit_0_6 = true
          /\ getPolygonColor p = "rgba(255, 255, 0, 0.5)")
      \/ (less p lit_0_4 = true
          /\ getPolygonColor p = "rgba(0, 255, 0, 0.5)"))
  /\ (forall p1 p2 : number,
         geq p2 p1 = true ->
         (severity (getPolygonColor p1) <= severity (getPolygonColor p2))%nat).
Proof.
  split.
  - intros p N. unfold getPolygonColor.
    assert (L8 : less p lit_0_8 = negb (geq p lit_0_8))
      by apply (less_negb_geq _ _ p N).
    assert (L6 : less p lit_0_6 = negb (geq p lit_0_6))
      by apply (less_negb_geq _ _ p N).
    assert (L4 : less p lit_0_4 = negb (geq p lit_0_4))
      by apply (less_negb_geq _ _ p N).
    destruct (geq p lit_0_8); [left; split; reflexivity|].
    destruct (geq p lit_0_6); [right; left; repeat split; exact L8|].
    destruct (geq p lit_0_4); [right; right; left; repeat split; exact L6|].
    right; right; right. split; [exact L4|reflexivity].
  - intros p1 p2 H. unfold getPolygonColor.
    assert (T8 : geq p1 lit_0_8 = true -> geq p2 lit_0_8 = true)
      by (intros G; exact (geq_trans _ _ p1 p2 G H)).
    assert (T6 : geq p1 lit_0_6 = true -> geq p2 lit_0_6 = true)
      by (intros G; exact (geq_trans _ _ p1 p2 G H)).
    assert (T4 : geq p1 lit_0_4 = true -> geq p2 lit_0_4 = true)
      by (intros G; exact (geq_trans _ _ p1 p2 G H)).
    destruct (geq p1 lit_0_8).
    { rewrite (T8 eq_refl). apply Nat.le_refl. }
    destruct (geq p1 lit_0_6).
    { rewrite (T6 eq_refl). destruct (geq p2 lit_0_8); vm_compute; lia. }
    destruct (geq p1 lit_0_4).
    { rewrite (T4 eq_refl).
      destruct (geq p2 lit_0_8), (geq p2 lit_0_6); vm_compute; lia. }
    destruct (geq p2 lit_0_8), (geq p2 lit_0_6), (geq p2 lit_0_4);
      vm_compute; lia.
Qed.

Lemma getPolygonColor_total_monotone_witness :
  (severity (getPolygonColor lit_0_5)
   <= severity (getPolygonColor lit_0_8))%nat.
Proof.
  apply (proj2 getPolygonColor_total_monotone). reflexivity.
Defined.

(** * Further properties of the screens *)

(** * When the grouping throws *)

Section Throwing.

Lemma substring_prefix_length s :
  forall n, String.length (String.substring 0 n s)
            = Nat.min n (String.length s).
Proof.
  induction s as [|c s IH]; intros [|n]; simpl; try reflexivity.
  now rewrite IH.
Qed.

Lemma dateOf_length t :
  String.length (dateOf t) = Nat.min 8 (String.length t).
Proof. unfold dateOf, JS.substring. simpl. apply substring_prefix_length. Qed.

Lemma inherited_dateOf t :
  JS.inherited (dateOf t) = true
  <-> dateOf t = "toString" \/ t = "valueOf".
Proof.
  split.
  - intros H. unfold JS.inherited in H.
    apply existsb_exists in H as (p & Hin & Heq).
    apply String.eqb_eq in Heq. subst p.
    pose proof (dateOf_length t) as L. simpl in Hin.
    repeat (destruct Hin as [Hin|Hin];
            [pose proof (f_equal String.length Hin) as Hlen;
             rewrite L in Hlen; cbn [String.length] in Hlen; try lia|]);
      try contradiction.
    + left. now symmetry.
    + right. rewrite Hin. symmetry. apply dateOf_short. lia.
  - intros [E| ->]; [rewrite E|]; reflexivity.
Qed.

Lemma fold_Throw {X Y : Type} (f : X -> Y -> result X) e l :
  fold_left (fun acc y => a <- acc ;; f a y) l (Throw e) = Throw e.
Proof. induction l as [|y l IH]; simpl; [reflexivity|exact IH]. Qed.

Lemma groupStep_inherited l g t :
  Grouped l g ->
  (forall t', In t' l -> JS.inherited (dateOf t') = false) ->
  JS.inherited (dateOf t) = true ->
  groupStep g t = Throw (TypeError "acc[date].push is not a function").
Proof.
  intros Hg Hl Ht. unfold groupStep, JS.get. fold (dateOf t).
  destruct (JS.getOwn g (dateOf t)) as [b|] eqn:E.
  - exfalso. apply getOwn_Some_key in E.
    destruct (grouped_key _ _ Hg _ E) as (t' & Ht' & Ed).
    specialize (Hl t' Ht'). rewrite Ed in Hl. congruence.
  - now rewrite Ht.
Qed.

Lemma grouped_from_throw rest :
  forall l g,
    Grouped l g ->
    (forall t, In t l -> JS.inherited (dateOf t) = false) ->
    (exists t, In t rest /\ JS.inherited (dateOf t) = true) ->
    fold_left (fun acc time => a <- acc ;; groupStep a time) rest (Ok g)
    = Throw (TypeError "acc[date].push is not a function").
Proof.
  induction rest as [|t rest IH]; intros l g Hg Hl (t0 & Hin & Ht0).
  - destruct Hin.
  - simpl. destruct (JS.inherited (dateOf t)) eqn:Et.
    + rewrite (groupStep_inherited l g t Hg Hl Et). apply fold_Throw.
    + destruct (groupStep_Grouped l g t Hg Et) as (g1 & E1 & Hg1).
      rewrite E1. apply (IH (l ++ [t]) g1 Hg1).
      * intros t' Ht'. apply in_app_or in Ht' as [Ht'|[<-|[]]];
          [now apply Hl | exact Et].
      * destruct Hin as [<-|Hin]; [congruence|]. now exists t0.
Qed.

Lemma grouped_throws times :
  (exists t, In t times /\ JS.inherited (dateOf t) = true) ->
  grouped times = Throw (TypeError "acc[date].push is not a function").
Proof.
  intros H. apply (grouped_from_throw times [] JS.empty Grouped_empty);
    [intros t []|exact H].
Qed.

Lemma grouped_Ok_not_inherited times g :
  grouped times = Ok g ->
  forall t, In t times -> JS.inherited (dateOf t) = false.
Proof.
  intros E t Ht. destruct (JS.inherited (dateOf t)) eqn:Ei; [|reflexivity].
  rewrite grouped_throws in E; [discriminate|]. now exists t.
Qed.

Lemma not_inherited_dec times :
  (forall t, In t times -> JS.inherited (dateOf t) = false)
  \/ (exists t, In t times /\ JS.inherited (dateOf t) = true).
Proof.
  induction times as [|t times [IH|(t0 & Hin & H0)]].
  - left. intros t [].
  - destruct (JS.inherited (dateOf t)) eqn:E.
    + right. exists t. split; [now left|exact E].
    + left. intros t' [<-|Ht']; [exact E|now apply IH].
  - right. exists t0. split; [now right|exact H0].
Qed.

Lemma effects_succeed s :
  (forall t, In t (availableTimes s) -> JS.inherited (dateOf t) = false) ->
  exists s1 s2,
    Index.groupingEffect s = Ok s1 /\ sortingEffect s = Ok s2.
Proof.
  intros Hinh. destruct (availableTimes s) as [|t ts] eqn:Et.
  - exists s, s. unfold_effects. rewrite Et. split; reflexivity.
  - rewrite <- Et in Hinh.
    assert (Hne : availableTimes s <> []) by (rewrite Et; discriminate).
    destruct (indexEffect_Grouped s Hinh Hne) as (g & _ & _ & E1).
    destruct (sortingEffect_Grouped s Hinh Hne) as (g' & _ & _ & E2).
    eexists. eexists. split; [exact E1|exact E2].
Qed.

Lemma hitsPrototype_inherited times :
  hitsPrototype times
  <-> exists t, In t times /\ JS.inherited (dateOf t) = true.
Proof.
  unfold hitsPrototype.
  split; intros (t & Hin & H); exists t; (split; [exact Hin|]);
    now apply inherited_dateOf.
Qed.

Lemma groupingEffect_throws screen s :
  hitsPrototype (availableTimes s) ->
  groupingEffectOf screen s
  = Throw (TypeError "acc[date].push is not a function").
Proof.
  intros H. pose proof H as (t & Hin & _).
  apply hitsPrototype_inherited in H.
  destruct screen; simpl; unfold_effects;
    (destruct (availableTimes s) as [|t0 ts] eqn:Et; [destruct Hin|]);
    simpl Nat.ltb; cbv iota; now rewrite (grouped_throws _ H).
Qed.

End Throwing.

(** X1.  The grouping effect of every screen throws exactly when some
    token of the list begins with the eight characters "toString" or is
    the token "valueOf"; the exception is then the TypeError of the call
    of [push]. *)
Theorem grouping_throws_exactly_on_inherited_names
  (screen : Screen) (s : State) :
  ((exists e, groupingEffectOf screen s = Throw e)
   <-> hitsPrototype (availableTimes s))
  /\ (forall e, groupingEffectOf screen s = Throw e ->
                e = TypeError "acc[date].push is not a function").
Proof.
  pose proof (groupingEffect_throws screen s) as Hthrow.
  assert (Hok : ~ hitsPrototype (availableTimes s) ->
                exists s', groupingEffectOf screen s = Ok s').
  { intros H. rewrite hitsPrototype_inherited in H.
    destruct (not_inherited_dec (availableTimes s)) as [Hn|Hy];
      [|contradiction].
    destruct (effects_succeed s Hn) as (s1 & s2 & E1 & E2).
    destruct screen; simpl; eauto. }
  split; [split|].
  - intros (e & He).
    destruct (not_inherited_dec (availableTimes s)) as [Hn|Hy].
    + destruct Hok as (s' & Es').
      * rewrite hitsPrototype_inherited. intros (t & Hin & Ht).
        rewrite (Hn t Hin) in Ht. discriminate.
      * congruence.
    + now apply hitsPrototype_inherited.
  - intros H. eexists. now apply Hthrow.
  - intros e He.
    destruct (not_inherited_dec (availableTimes s)) as [Hn|Hy].
    + destruct Hok as (s' & Es'); [|congruence].
      rewrite hitsPrototype_inherited. intros (t & Hin & Ht).
      rewrite (Hn t Hin) in Ht. discriminate.
    + apply hitsPrototype_inherited in Hy. rewrite (Hthrow Hy) in He.
      now injection He.
Qed.

(** * Buckets in input order *)

Section InputOrder.

Lemma filter_hasDate_none l k :
  (forall t, In t l -> dateOf t <> k) -> filter (hasDate k) l = [].
Proof.
  induction l as [|t l IH]; intros H; simpl; [reflexivity|].
  unfold hasDate at 1.
  destruct (String.eqb_spec (dateOf t) k) as [E|N].
  - exfalso. exact (H t (or_introl eq_refl) E).
  - apply IH. intros t' Ht'. apply H. now right.
Qed.

Lemma groupStep_filter l g t :
  Grouped l g ->
  (forall k b, JS.getOwn g k = Some b -> b = filter (hasDate k) l) ->
  JS.inherited (dateOf t) = false ->
  exists g',
    groupStep g t = Ok g'
    /\ forall k b, JS.getOwn g' k = Some b ->
                   b = filter (hasDate k) (l ++ [t]).
Proof.
  intros Hg Hq Hinh. unfold groupStep, JS.get. fold (dateOf t).
  rewrite Hinh.
  assert (Hstep : forall k, filter (hasDate k) (l ++ [t])
                            = filter (hasDate k) l
                              ++ if String.eqb (dateOf t) k then [t] else []).
  { intros k. rewrite filter_app. simpl. unfold hasDate at 2.
    now destruct (String.eqb (dateOf t) k). }
  destruct (JS.getOwn g (dateOf t)) as [b0|] eqn:E;
    (eexists; split; [reflexivity|]); intros k b Hget; rewrite Hstep;
    destruct (String.eqb_spec (dateOf t) k) as [<-|N].
  - rewrite getOwn_set_same in Hget. injection Hget as <-.
    now rewrite (Hq _ _ E).
  - rewrite getOwn_set_other in Hget by assumption.
    rewrite app_nil_r. now apply Hq.
  - rewrite getOwn_set_same in Hget. injection Hget as <-.
    rewrite filter_hasDate_none; [reflexivity|].
    intros t' Ht' Ed. destruct (grouped_mem _ _ Hg t' Ht') as (b' & Eb & _).
    rewrite Ed, E in Eb. discriminate.
  - rewrite getOwn_set_other in Hget by assumption.
    rewrite app_nil_r. now apply Hq.
Qed.

Lemma grouped_from_filter rest :
  forall l g,
    Grouped l g ->
    (forall k b, JS.getOwn g k = Some b -> b = filter (hasDate k) l) ->
    (forall t, In t rest -> JS.inherited (dateOf t) = false) ->
    exists g',
      fold_left (fun acc time => a <- acc ;; groupStep a time) rest (Ok g)
      = Ok g'
      /\ forall k b, JS.getOwn g' k = Some b ->
                     b = filter (hasDate k) (l ++ rest).
Proof.
  induction rest as [|t rest IH]; intros l g Hg Hq Hinh; simpl.
  - exists g. split; [reflexivity|]. now rewrite app_nil_r.
  - assert (Ht : JS.inherited (dateOf t) = false) by (apply Hinh; now left).
    destruct (groupStep_filter l g t Hg Hq Ht) as (g1 & E1 & Hq1).
    destruct (groupStep_Grouped l g t Hg Ht) as (g1' & E1' & Hg1).
    assert (g1' = g1) as -> by congruence.
    rewrite E1.
    destruct (IH (l ++ [t]) g1 Hg1 Hq1) as (g' & E' & Hq').
    { intros t' Ht'. apply Hinh. now right. }
    exists g'. split; [exact E'|]. now rewrite <- app_assoc in Hq'.
Qed.

Lemma grouped_filter times g :
  grouped times = Ok g ->
  forall k b, JS.getOwn g k = Some b -> b = filter (hasDate k) times.
Proof.
  intros E.
  destruct (grouped_from_filter times [] JS.empty Grouped_empty)
    as (g' & E' & Hq).
  - discriminate.
  - exact (grouped_Ok_not_inherited times g E).
  - unfold grouped in E. rewrite E' in E. injection E as ->. exact Hq.
Qed.

End InputOrder.

(** X2.  On the screens that do not sort, every bucket of the mapping
    holds the tokens of its date in the order of the input list: it is
    the input list filtered by the date. *)
Theorem index_buckets_keep_input_order (s s' : State) :
  availableTimes s <> [] ->
  Index.groupingEffect s = Ok s' ->
  forall date bucket,
    JS.getOwn (groupedTimes s') date = Some bucket ->
    bucket = filter (hasDate date) (availableTimes s).
Proof.
  intros Hne E. unfold Index.groupingEffect in E.
  destruct (availableTimes s) as [|t ts] eqn:Et; [congruence|].
  simpl Nat.ltb in E. cbv iota in E.
  destruct (grouped (t :: ts)) as [g|e] eqn:Eg; [|discriminate].
  simpl bind in E. injection E as <-. intros date bucket Hb.
  exact (grouped_filter _ g Eg date bucket Hb).
Qed.

Lemma index_buckets_keep_input_order_witness :
  ["202401010000"; "202401010600"]
  = filter (hasDate "20240101") (availableTimes workedArrived).
Proof.
  apply (index_buckets_keep_input_order workedArrived workedGrouped).
  - discriminate.
  - vm_compute. reflexivity.
  - reflexivity.
Defined.

(** * The picker over the events of a screen *)

Section Picker.

Lemma Grouped_bucket_nonempty l g k b :
  Grouped l g -> JS.getOwn g k = Some b -> b <> [].
Proof.
  intros Hg Hb.
  destruct (grouped_key _ _ Hg k (getOwn_Some_key _ _ _ Hb))
    as (t & Ht & <-).
  destruct (grouped_mem _ _ Hg t Ht) as (b' & Eb & Hin).
  rewrite Hb in Eb. injection Eb as <-. intros ->. destruct Hin.
Qed.

Lemma sort_nonempty {A : Type} (cmp : A -> A -> option Z) l :
  l <> [] -> JS.sort cmp l <> [].
Proof.
  intros Hl E. apply Hl. apply Permutation_nil.
  rewrite <- E. apply sort_Permutation.
Qed.

Lemma pickerSafe_frame (s s' : State) :
  groupedTimes s' = groupedTimes s -> selectedDate s' = selectedDate s ->
  pickerSafe s -> pickerSafe s'.
Proof. unfold pickerSafe. intros -> ->. tauto. Qed.

Lemma pickerSafe_cleared (s' : State) :
  groupedTimes s' = JS.empty -> selectedDate s' = None -> pickerSafe s'.
Proof.
  unfold pickerSafe. intros -> ->. split; [discriminate|].
  intros date bucket H. discriminate H.
Qed.

Lemma pickerSafe_grouped l g first s :
  Grouped l g -> (forall d, first = Some d -> In d (JS.keys g)) ->
  pickerSafe (setSelectedDate first (setGroupedTimes g s)).
Proof.
  intros Hg Hfirst. split; simpl.
  - intros date E. specialize (Hfirst date E). apply keys_getOwn in Hfirst.
    destruct (JS.getOwn g date) as [b|]; [now exists b|congruence].
  - intros date bucket. apply (Grouped_bucket_nonempty l g).  exact Hg.
Qed.

Lemma pickerSafe_sorted l g first s :
  Grouped l g -> (forall d, first = Some d -> In d (sortedDates g)) ->
  pickerSafe (setSelectedDate first
                (setGroupedTimes (map (sortedBucket g) (sortedDates g)) s)).
Proof.
  intros Hg Hfirst. unfold sortedBucket. split; simpl.
  - intros date E. specialize (Hfirst date E).
    rewrite (getOwn_map_key
               (fun d => JS.sort byTimeDescending (bucketOf g d))).
    destruct (in_dec string_dec date (sortedDates g)); [eauto|contradiction].
  - intros date bucket.
    rewrite (getOwn_map_key
               (fun d => JS.sort byTimeDescending (bucketOf g d))).
    destruct (in_dec string_dec date (sortedDates g)) as [Hin|];
      [|discriminate].
    intros [= <-]. apply sort_nonempty.
    apply sortedDates_In in Hin. unfold bucketOf.
    destruct (JS.getOwn g date) as [b|] eqn:E.
    + exact (Grouped_bucket_nonempty l g date b Hg E).
    + now apply getOwn_None in E.
Qed.

Lemma nth_error_0_In {X : Type} (l : list X) x :
  nth_error l 0 = Some x -> In x l.
Proof. destruct l; simpl; [discriminate|]. intros [= ->]. now left. Qed.

Lemma groupingEffect_pickerSafe screen s s' :
  groupingEffectOf screen s = Ok s' -> pickerSafe s -> pickerSafe s'.
Proof.
  intros E Hs.
  destruct (availableTimes s) as [|t ts] eqn:Et.
  - assert (s' = s) as ->; [|exact Hs].
    destruct screen; simpl in E; unfold_effects; 
      unfold Index.groupingEffect, Part000.groupingEffect,
        Part002.groupingEffect, sortingEffect in E;
      rewrite Et in E; simpl in E; congruence.
  - assert (Hne : availableTimes s <> []) by (rewrite Et; discriminate).
    assert (Hinh : forall t, In t (availableTimes s) ->
                             JS.inherited (dateOf t) = false).
    { destruct (not_inherited_dec (availableTimes s)) as [H|H];
        [exact H|exfalso].
      apply hitsPrototype_inherited in H.
      rewrite (groupingEffect_throws screen s H) in E. discriminate. }
    destruct screen; simpl in E.
    + destruct (indexEffect_Grouped s Hinh Hne) as (g & _ & Hg & E1).
      rewrite E1 in E. injection E as <-.
      apply (pickerSafe_grouped _ g _ s Hg). apply nth_error_0_In.
    + destruct (sortingEffect_Grouped s Hinh Hne) as (g & _ & Hg & E1).
      unfold Part000.groupingEffect in E. rewrite E1 in E. injection E as <-.
      apply (pickerSafe_sorted _ g _ s Hg). apply nth_error_0_In.
    + destruct (sortingEffect_Grouped s Hinh Hne) as (g & _ & Hg & E1).
      unfold Part002.groupingEffect in E. rewrite E1 in E. injection E as <-.
      apply (pickerSafe_sorted _ g _ s Hg). apply nth_error_0_In.
Qed.

Lemma fetchTimes_frame screen outcome s :
  groupedTimes (fetchTimesOf screen outcome s) = groupedTimes s
  /\ selectedDate (fetchTimesOf screen outcome s) = selectedDate s.
Proof.
  destruct screen; simpl;
    [unfold Index.fetchTimes, Index.fetchTimesBody
    |unfold Part000.fetchTimes, Part000.fetchTimesBody
    |unfold Part002.fetchTimes, Part002.fetchTimesBody];
    destruct outcome as [e|[d|]]; simpl; try (split; reflexivity);
    destruct (JS.getOwn d (gridLayer (selectedLayer s))) as [times|];
    try (split; reflexivity);
    destruct (0 <? List.length times)%nat; try (split; reflexivity);
    destruct (nth_error times (List.length times - 1));
    split; reflexivity.
Qed.

Lemma onLayerResponse_frame screen rendered layer outcome s :
  groupedTimes (onLayerResponse screen rendered layer outcome s)
  = groupedTimes s
  /\ selectedDate (onLayerResponse screen rendered layer outcome s)
     = selectedDate s.
Proof.
  unfold onLayerResponse, onLayerResponseBody.
  destruct outcome as [e|[d|]]; simpl; try (split; reflexivity).
  destruct (JS.getOwn d (gridLayer layer)) as [times|];
    try (split; reflexivity).
  destruct (0 <? List.length times)%nat; try (split; reflexivity).
  destruct (nth_error times (List.length times - 1));
    destruct screen; split; reflexivity.
Qed.

Lemma listedDates_In screen s d :
  In d (listedDatesOf screen s) <-> In d (JS.keys (groupedTimes s)).
Proof.
  destruct screen; simpl;
    unfold Index.listedDates, Part000.listedDates, Part002.listedDates;
    [reflexivity | apply sort_In | apply sort_In].
Qed.

Lemma event_pickerSafe screen s s' :
  event screen s s' -> pickerSafe s -> pickerSafe s'.
Proof.
  intros Hev Hs. destruct Hev.
  - now apply (groupingEffect_pickerSafe screen s).
  - now apply pickerSafe_cleared.
  - destruct (fetchTimes_frame screen outcome s) as [Eg Ed].
    now apply (pickerSafe_frame s).
  - destruct screen; simpl;
      [now apply pickerSafe_cleared | | ]; now apply (pickerSafe_frame s).
  - destruct (onLayerResponse_frame screen rendered layer outcome s)
      as [Eg Ed].
    now apply (pickerSafe_frame s).
  - destruct Hs as [_ Hb]. split; simpl; [|exact Hb].
    intros d [= <-]. apply listedDates_In, keys_getOwn in H.
    destruct (JS.getOwn (groupedTimes s) date) as [b|]; [eauto|congruence].
  - destruct screen; now apply (pickerSafe_frame s).
  - now apply (pickerSafe_frame s).
  - now apply (pickerSafe_frame s).
Qed.

End Picker.

(** X3.  In every state a screen can reach from its start, through
    whatever order of effects, responses and presses, the selected date,
    when there is one, is a key of the mapping and one of the dates the
    picker lists, and no bucket of the mapping is empty: the time list
    [groupedTimes[selectedDate]] always has an array to draw. *)
Theorem picker_always_has_its_bucket (screen : Screen) (s : State) :
  reachable screen s ->
  pickerSafe s
  /\ forall date,
       selectedDate s = Some date ->
       In date (listedDatesOf screen s)
       /\ bucketOf (groupedTimes s) date <> [].
Proof.
  intros Hr.
  assert (Hs : pickerSafe s).
  { induction Hr as [|s s' Hr IH Hev].
    - now apply pickerSafe_cleared.
    - now apply (event_pickerSafe screen s). }
  split; [exact Hs|]. intros date Ed. destruct Hs as [Hsel Hb].
  destruct (Hsel date Ed) as (bucket & Eb). split.
  - apply listedDates_In, keys_getOwn. congruence.
  - unfold bucketOf. rewrite Eb. exact (Hb date bucket Eb).
Qed.

Lemma picker_always_has_its_bucket_witness :
  pickerSafe (onDatePress "20240102" workedGrouped)
  /\ forall date,
       selectedDate (onDatePress "20240102" workedGrouped) = Some date ->
       In date (listedDatesOf OnIndex (onDatePress "20240102" workedGrouped))
       /\ bucketOf (groupedTimes (onDatePress "20240102" workedGrouped)) date
          <> [].
Proof.
  apply (picker_always_has_its_bucket OnIndex).
  apply (AfterEvent OnIndex workedGrouped).
  - apply (AfterEvent OnIndex workedArrived).
    + apply (AfterEvent OnIndex initialState).
      * apply AtStart.
      * apply (TimesArrived OnIndex workedResponse).
    + apply GroupingRan. vm_compute. reflexivity.
  - apply (DatePressed OnIndex "20240102"). vm_compute. right. left.
    reflexivity.
Defined.

(** * Labels *)

Section Labels.

Lemma substring_of_prefix s :
  forall a n m, (a + n <= m)%nat ->
    String.substring a n (String.substring 0 m s) = String.substring a n s.
Proof.
  induction s as [|c s IH]; intros a n m H.
  - destruct m; simpl; destruct a, n; reflexivity.
  - destruct m as [|m].
    + assert (a = 0%nat) as -> by lia. assert (n = 0%nat) as -> by lia.
      reflexivity.
    + destruct a as [|a]; destruct n as [|n]; simpl; try reflexivity.
      * f_equal. apply (IH 0%nat n m). lia.
      * apply (IH a 0%nat m). lia.
      * apply (IH a (S n) m). lia.
Qed.

Lemma substring_dateOf a b t :
  (a <= b <= 8)%nat -> JS.substring a b (dateOf t) = JS.substring a b t.
Proof.
  intros H. unfold dateOf, JS.substring.
  rewrite (Nat.min_l a b), (Nat.max_r a b) by lia.
  change (Nat.min 0 8) with 0%nat. change (Nat.max 0 8 - 0)%nat with 8%nat.
  apply substring_of_prefix. lia.
Qed.

Lemma formatDate_dateOf t : formatDate (dateOf t) = formatDate t.
Proof.
  unfold formatDate. now rewrite !substring_dateOf by lia.
Qed.

Lemma append_assoc (a b c : string) :
  ((a ++ b) ++ c)%string = (a ++ (b ++ c))%string.
Proof. induction a as [|x a IH]; simpl; [reflexivity|now rewrite IH]. Qed.

Lemma length_append (a b : string) :
  String.length (a ++ b)%string = (String.length a + String.length b)%nat.
Proof. induction a as [|x a IH]; simpl; [reflexivity|now rewrite IH]. Qed.

Lemma js_substring_length a b t :
  (a <= b <= String.length t)%nat ->
  String.length (JS.substring a b t) = (b - a)%nat.
Proof.
  intros H. unfold JS.substring.
  rewrite (Nat.min_l a b), (Nat.max_r a b) by lia.
  apply substring_length. lia.
Qed.

Lemma length8_chars d :
  String.length d = 8%nat ->
  exists c1 c2 c3 c4 c5 c6 c7 c8,
    d = String c1 (String c2 (String c3 (String c4
          (String c5 (String c6 (String c7 (String c8 EmptyString))))))).
Proof.
  intros H.
  do 8 (destruct d as [|? d]; [discriminate H|]; simpl in H;
        apply Nat.succ_inj in H).
  destruct d; [|discriminate H]. repeat eexists.
Qed.

Lemma formatDate_inj d1 d2 :
  String.length d1 = 8%nat -> String.length d2 = 8%nat ->
  formatDate d1 = formatDate d2 -> d1 = d2.
Proof.
  intros L1 L2 E.
  destruct (length8_chars d1 L1)
    as (a1 & a2 & a3 & a4 & a5 & a6 & a7 & a8 & ->).
  destruct (length8_chars d2 L2)
    as (b1 & b2 & b3 & b4 & b5 & b6 & b7 & b8 & ->).
  cbv in E. congruence.
Qed.

End Labels.

(** X4.  The label of the time button is put together from the labels of
    the picker: for every token it is the date label of the token's date
    key, a space and the label of the token's time option; from thirteen
    characters on it has the twenty characters of "YYYY-MM-DD HH:MM UTC". *)
Theorem time_button_label_is_date_and_time_label (t : string) :
  formatTime t = (formatDate (dateOf t) ++ " " ++ timeLabel t)%string
  /\ formatDate (dateOf t) = formatDate t
  /\ ((13 <= String.length t)%nat ->
      String.length (formatTime t) = 20%nat
      /\ String.length (formatDate (dateOf t)) = 10%nat
      /\ String.length (timeLabel t) = 9%nat).
Proof.
  split; [|split].
  - rewrite formatDate_dateOf. unfold formatTime, formatDate, timeLabel.
    now rewrite !append_assoc.
  - apply formatDate_dateOf.
  - intros L. rewrite formatDate_dateOf.
    unfold formatTime, formatDate, timeLabel.
    rewrite !length_append, !js_substring_length by lia. simpl. lia.
Qed.

Lemma time_button_label_is_date_and_time_label_witness :
  String.length (formatTime "20240101.063000") = 20%nat
  /\ String.length (formatDate (dateOf "20240101.063000")) = 10%nat
  /\ String.length (timeLabel "20240101.063000") = 9%nat.
Proof.
  apply (time_button_label_is_date_and_time_label "20240101.063000").
  simpl. lia.
Defined.

(** X5.  After the grouping effect has run on valid tokens, the date
    options of the picker carry distinct labels: two dates of the mapping
    never format to the same text. *)
Theorem date_options_have_distinct_labels (screen : Screen) (s s' : State) :
  availableTimes s <> [] ->
  Forall (fun t => validToken t = true) (availableTimes s) ->
  groupingEffectOf screen s = Ok s' ->
  NoDup (map formatDate (listedDatesOf screen s')).
Proof.
  intros Hne Hv E.
  pose proof (valid_not_inherited _ Hv) as Hinh.
  assert (H : NoDup (listedDatesOf screen s')
              /\ Forall dateKey (listedDatesOf screen s')).
  { destruct screen; simpl in *.
    - destruct (indexEffect_Grouped s Hinh Hne) as (g & _ & Hg & E1).
      rewrite E1 in E. injection E as <-. unfold Index.listedDates. simpl.
      split; [apply keys_NoDup, (grouped_NoDup _ _ Hg)|].
      apply Forall_forall. intros k Hk. rewrite In_keys in Hk.
      now apply (Grouped_dateKey _ g k Hg).
    - destruct (sortingEffect_Grouped s Hinh Hne) as (g & _ & Hg & E1).
      unfold Part000.groupingEffect in E. rewrite E1 in E. injection E as <-.
      unfold Part000.listedDates. simpl. split.
      + apply sort_NoDup, keys_NoDup. rewrite map_fst_sortedBucket.
        apply (Permutation_NoDup
                 (Permutation_sym (sortedDates_Permutation g))).
        apply (grouped_NoDup _ _ Hg).
      + apply Forall_forall. intros k Hk.
        rewrite sort_In, In_keys, map_fst_sortedBucket, sortedDates_In in Hk.
        now apply (Grouped_dateKey _ g k Hg).
    - destruct (sortingEffect_Grouped s Hinh Hne) as (g & _ & Hg & E1).
      unfold Part002.groupingEffect in E. rewrite E1 in E. injection E as <-.
      unfold Part002.listedDates. simpl. split.
      + apply sort_NoDup, keys_NoDup. rewrite map_fst_sortedBucket.
        apply (Permutation_NoDup
                 (Permutation_sym (sortedDates_Permutation g))).
        apply (grouped_NoDup _ _ Hg).
      + apply Forall_forall. intros k Hk.
        rewrite sort_In, In_keys, map_fst_sortedBucket, sortedDates_In in Hk.
        now apply (Grouped_dateKey _ g k Hg). }
  destruct H as [Hnd Hk]. rewrite Forall_forall in Hk.
  apply NoDup_map_NoDup_ForallPairs; [|exact Hnd].
  intros a b Ha Hb Eab.
  apply formatDate_inj; [apply (Hk a Ha) | apply (Hk b Hb) | exact Eab].
Qed.

Lemma date_options_have_distinct_labels_witness :
  NoDup (map formatDate (listedDatesOf OnIndex workedGrouped)).
Proof.
  apply (date_options_have_distinct_labels OnIndex workedArrived).
  - discriminate.
  - repeat constructor.
  - vm_compute. reflexivity.
Defined.

(** * One descending arrangement *)

Section Arrangement.

Lemma above_asym a b : above a b -> above b a -> False.
Proof. destruct a, b; simpl; try contradiction. lia. Qed.

Lemma sorted_unique {X : Type} (R : X -> X -> Prop) :
  (forall a b, R a b -> R b a -> False) ->
  forall l1 l2,
    StronglySorted R l1 -> StronglySorted R l2 -> Permutation l1 l2 ->
    l1 = l2.
Proof.
  intros Hasym. induction l1 as [|x l1 IH]; intros l2 H1 H2 Hp.
  - apply Permutation_nil in Hp. now subst.
  - destruct l2 as [|y l2].
    + apply Permutation_sym, Permutation_nil in Hp. discriminate.
    + inversion H1 as [|? ? H1' A1]; subst.
      inversion H2 as [|? ? H2' A2]; subst.
      rewrite Forall_forall in A1, A2.
      assert (x = y) as ->.
      { assert (Hx : In x (y :: l2))
          by (apply (Permutation_in _ Hp); now left).
        assert (Hy : In y (x :: l1))
          by (apply (Permutation_in _ (Permutation_sym Hp)); now left).
        destruct Hx as [->|Hx]; [reflexivity|].
        destruct Hy as [->|Hy]; [reflexivity|].
        exfalso. exact (Hasym x y (A1 y Hy) (A2 x Hx)). }
      f_equal. apply IH; try assumption.
      now apply Permutation_cons_inv in Hp.
Qed.

Lemma datesDescending_unique l1 l2 :
  datesDescending l1 -> datesDescending l2 -> Permutation l1 l2 -> l1 = l2.
Proof. apply sorted_unique. intros a b. apply above_asym. Qed.

Lemma Grouped_keys_In l g k :
  Grouped l g -> (In k (map fst g) <-> In k (map dateOf l)).
Proof.
  intros Hg. split.
  - intros Hk. destruct (grouped_key _ _ Hg k Hk) as (t & Ht & <-).
    now apply in_map.
  - intros Hk. apply in_map_iff in Hk as (t & <- & Ht).
    now apply (Grouped_has_key l).
Qed.

Lemma Grouped_keys_Permutation l1 l2 g1 g2 :
  Grouped l1 g1 -> Grouped l2 g2 -> Permutation l1 l2 ->
  Permutation (map fst g1) (map fst g2).
Proof.
  intros H1 H2 Hp.
  apply NoDup_Permutation;
    [apply (grouped_NoDup _ _ H1) | apply (grouped_NoDup _ _ H2) |].
  intros k. rewrite (Grouped_keys_In l1 g1 k H1), (Grouped_keys_In l2 g2 k H2).
  split; apply Permutation_in;
    [|apply Permutation_sym]; now apply Permutation_map.
Qed.

Lemma sortedDates_descending l g :
  Grouped l g -> Forall (fun t => validToken t = true) l ->
  datesDescending (sortedDates g).
Proof.
  intros Hg Hv. apply sort_dates_descending.
  - apply keys_NoDup, (grouped_NoDup _ _ Hg).
  - apply Forall_forall. intros k Hk. rewrite In_keys in Hk.
    now apply (Grouped_dateKey l g).
Qed.

Lemma listed_sorted l g :
  Grouped l g -> Forall (fun t => validToken t = true) l ->
  JS.sort byDateDescending (JS.keys (map (sortedBucket g) (sortedDates g)))
  = sortedDates g.
Proof.
  intros Hg Hv. apply datesDescending_unique.
  - apply sort_dates_descending.
    + apply keys_NoDup. rewrite map_fst_sortedBucket.
      apply (Permutation_NoDup
               (Permutation_sym (sortedDates_Permutation g))).
      apply (grouped_NoDup _ _ Hg).
    + apply Forall_forall. intros k Hk.
      rewrite In_keys, map_fst_sortedBucket, sortedDates_In in Hk.
      now apply (Grouped_dateKey l g).
  - now apply (sortedDates_descending l).
  - rewrite sort_Permutation, keys_Permutation.
    now rewrite map_fst_sortedBucket.
Qed.

End Arrangement.

(** X6.  On the screens that sort, after the effect has run on valid
    tokens, the dates the picker lists are exactly [sortedDates], the
    selected date is the first of them, and no other descending
    arrangement of the mapping's keys exists: the listing does not depend
    on how the engine's sort treats ties. *)
Theorem picker_lists_sortedDates (s : State) :
  availableTimes s <> [] ->
  Forall (fun t => validToken t = true) (availableTimes s) ->
  exists g s',
    grouped (availableTimes s) = Ok g
    /\ Part000.groupingEffect s = Ok s'
    /\ Part002.groupingEffect s = Ok s'
    /\ Part000.listedDates s' = sortedDates g
    /\ Part002.listedDates s' = sortedDates g
    /\ selectedDate s' = hd_error (Part000.listedDates s')
    /\ forall dates,
         Permutation dates (JS.keys (groupedTimes s')) ->
         datesDescending dates -> dates = sortedDates g.
Proof.
  intros Hne Hv.
  destruct (sortingEffect_Grouped s (valid_not_inherited _ Hv) Hne)
    as (g & Eg & Hg & Es).
  pose proof (listed_sorted _ g Hg Hv) as El.
  exists g. eexists. split; [exact Eg|]. split; [exact Es|].
  split; [exact Es|]. split; [exact El|]. split; [exact El|]. split.
  - unfold Part000.listedDates. simpl. rewrite El.
    now destruct (sortedDates g).
  - intros dates Hp Hd. simpl in Hp.
    apply datesDescending_unique;
      [exact Hd | now apply (sortedDates_descending (availableTimes s)) |].
    rewrite Hp, keys_Permutation. now rewrite map_fst_sortedBucket.
Qed.

Lemma picker_lists_sortedDates_witness :
  exists g s',
    grouped (availableTimes (withTimes workedExample)) = Ok g
    /\ Part000.groupingEffect (withTimes workedExample) = Ok s'
    /\ Part002.groupingEffect (withTimes workedExample) = Ok s'
    /\ Part000.listedDates s' = sortedDates g
    /\ Part002.listedDates s' = sortedDates g
    /\ selectedDate s' = hd_error (Part000.listedDates s')
    /\ forall dates,
         Permutation dates (JS.keys (groupedTimes s')) ->
         datesDescending dates -> dates = sortedDates g.
Proof.
  apply (picker_lists_sortedDates (withTimes workedExample)).
  - discriminate.
  - repeat constructor.
Defined.

Section Reordering.

Lemma filter_Permutation {X : Type} (p : X -> bool) l1 l2 :
  Permutation l1 l2 -> Permutation (filter p l1) (filter p l2).
Proof.
  induction 1 as [|x l1 l2 Hp IH|x y l|l1 l2 l3 H12 IH12 H23 IH23]; simpl.
  - constructor.
  - destruct (p x); [now apply perm_skip|exact IH].
  - destruct (p x), (p y); try apply Permutation_refl. apply perm_swap.
  - now transitivity (filter p l2).
Qed.

Lemma bucketOf_filter l g date :
  grouped l = Ok g -> Grouped l g ->
  bucketOf g date = filter (hasDate date) l.
Proof.
  intros E Hg. unfold bucketOf.
  destruct (JS.getOwn g date) as [b|] eqn:Eb.
  - now apply (grouped_filter l g E).
  - symmetry. apply filter_hasDate_none. intros t Ht Ed.
    destruct (grouped_mem _ _ Hg t Ht) as (b & Eb' & _).
    rewrite Ed, Eb in Eb'. discriminate.
Qed.

Lemma bucketOf_sorted g date :
  bucketOf (map (sortedBucket g) (sortedDates g)) date
  = JS.sort byTimeDescending (bucketOf g date).
Proof.
  unfold bucketOf at 1. unfold sortedBucket.
  rewrite (getOwn_map_key (fun d => JS.sort byTimeDescending (bucketOf g d))).
  destruct (in_dec string_dec date (sortedDates g)) as [Hin|Hn];
    [reflexivity|].
  unfold bucketOf. destruct (JS.getOwn g date) as [b|] eqn:E; [|reflexivity].
  exfalso. apply Hn, sortedDates_In. now apply getOwn_Some_key in E.
Qed.

End Reordering.

(** X7.  On the screens that sort, the date list, the selected date and
    the content of every bucket do not depend on the order in which the
    server lists the tokens: two lists of valid tokens that are
    permutations of each other give the same dates in the picker, the same
    selected date and, date by date, buckets with the same tokens. *)
Theorem sorting_screens_ignore_input_order (s1 s2 : State) :
  availableTimes s1 <> [] ->
  Forall (fun t => validToken t = true) (availableTimes s1) ->
  Permutation (availableTimes s1) (availableTimes s2) ->
  exists s1' s2',
    sortingEffect s1 = Ok s1'
    /\ sortingEffect s2 = Ok s2'
    /\ selectedDate s1' = selectedDate s2'
    /\ Part000.listedDates s1' = Part000.listedDates s2'
    /\ Part002.listedDates s1' = Part002.listedDates s2'
    /\ forall date,
         Permutation (bucketOf (groupedTimes s1') date)
                     (bucketOf (groupedTimes s2') date).
Proof.
  intros Hne1 Hv1 Hp.
  assert (Hv2 : Forall (fun t => validToken t = true) (availableTimes s2)).
  { rewrite Forall_forall in *. intros t Ht. apply Hv1.
    now apply (Permutation_in _ (Permutation_sym Hp)). }
  assert (Hne2 : availableTimes s2 <> []).
  { intros E. rewrite E in Hp.
    apply Permutation_sym, Permutation_nil in Hp. contradiction. }
  destruct (sortingEffect_Grouped s1 (valid_not_inherited _ Hv1) Hne1)
    as (g1 & Eg1 & Hg1 & E1).
  destruct (sortingEffect_Grouped s2 (valid_not_inherited _ Hv2) Hne2)
    as (g2 & Eg2 & Hg2 & E2).
  assert (Ed : sortedDates g1 = sortedDates g2).
  { apply datesDescending_unique.
    - now apply (sortedDates_descending (availableTimes s1)).
    - now apply (sortedDates_descending (availableTimes s2)).
    - rewrite !sortedDates_Permutation.
      now apply (Grouped_keys_Permutation (availableTimes s1)
                                          (availableTimes s2)). }
  assert (El : JS.sort byDateDescending
                 (JS.keys (map (sortedBucket g1) (sortedDates g1)))
               = JS.sort byDateDescending
                   (JS.keys (map (sortedBucket g2) (sortedDates g2)))).
  { rewrite (listed_sorted _ g1 Hg1 Hv1), (listed_sorted _ g2 Hg2 Hv2).
    exact Ed. }
  eexists. eexists. split; [exact E1|]. split; [exact E2|].
  split; [simpl; now rewrite Ed|]. split; [exact El|]. split; [exact El|].
  intros date. simpl. rewrite !bucketOf_sorted, !sort_Permutation.
  rewrite (bucketOf_filter _ g1 date Eg1 Hg1),
    (bucketOf_filter _ g2 date Eg2 Hg2).
  now apply filter_Permutation.
Qed.

Lemma sorting_screens_ignore_input_order_witness :
  exists s1' s2',
    sortingEffect (withTimes workedExample) = Ok s1'
    /\ sortingEffect (withTimes (rev workedExample)) = Ok s2'
    /\ selectedDate s1' = selectedDate s2'
    /\ Part000.listedDates s1' = Part000.listedDates s2'
    /\ Part002.listedDates s1' = Part002.listedDates s2'
    /\ forall date,
         Permutation (bucketOf (groupedTimes s1') date)
                     (bucketOf (groupedTimes s2') date).
Proof.
  apply (sorting_screens_ignore_input_order
           (withTimes workedExample) (withTimes (rev workedExample))).
  - discriminate.
  - repeat constructor.
  - apply Permutation_rev.
Defined.

(** * What the picker draws *)

Section Options.

(** The mapping a successful run of the effect leaves, screen by screen. *)
Lemma groupingEffect_inv screen s s' :
  availableTimes s <> [] ->
  groupingEffectOf screen s = Ok s' ->
  exists g,
    grouped (availableTimes s) = Ok g
    /\ Grouped (availableTimes s) g
    /\ (forall d, In d (listedDatesOf screen s') <-> In d (map fst g))
    /\ NoDup (listedDatesOf screen s')
    /\ (forall date,
          Permutation (bucketOf (groupedTimes s') date) (bucketOf g date)).
Proof.
  intros Hne E.
  assert (Hinh : forall t, In t (availableTimes s) ->
                           JS.inherited (dateOf t) = false).
  { destruct (not_inherited_dec (availableTimes s)) as [H|H];
      [exact H|exfalso].
    apply hitsPrototype_inherited in H.
    rewrite (groupingEffect_throws screen s H) in E. discriminate. }
  destruct screen; simpl in E.
  - destruct (indexEffect_Grouped s Hinh Hne) as (g & Eg & Hg & E1).
    rewrite E1 in E. injection E as <-. exists g.
    split; [exact Eg|]. split; [exact Hg|]. simpl.
    unfold Index.listedDates. simpl. split; [intros d; apply In_keys|].
    split; [apply keys_NoDup, (grouped_NoDup _ _ Hg)|].
    intros date. apply Permutation_refl.
  - destruct (sortingEffect_Grouped s Hinh Hne) as (g & Eg & Hg & E1).
    unfold Part000.groupingEffect in E. rewrite E1 in E. injection E as <-.
    exists g. split; [exact Eg|]. split; [exact Hg|]. simpl.
    unfold Part000.listedDates. simpl. split; [|split].
    + intros d. rewrite sort_In, In_keys, map_fst_sortedBucket.
      apply sortedDates_In.
    + apply sort_NoDup, keys_NoDup. rewrite map_fst_sortedBucket.
      apply (Permutation_NoDup
               (Permutation_sym (sortedDates_Permutation g))).
      apply (grouped_NoDup _ _ Hg).
    + intros date. rewrite bucketOf_sorted. apply sort_Permutation.
  - destruct (sortingEffect_Grouped s Hinh Hne) as (g & Eg & Hg & E1).
    unfold Part002.groupingEffect in E. rewrite E1 in E. injection E as <-.
    exists g. split; [exact Eg|]. split; [exact Hg|]. simpl.
    unfold Part002.listedDates. simpl. split; [|split].
    + intros d. rewrite sort_In, In_keys, map_fst_sortedBucket.
      apply sortedDates_In.
    + apply sort_NoDup, keys_NoDup. rewrite map_fst_sortedBucket.
      apply (Permutation_NoDup
               (Permutation_sym (sortedDates_Permutation g))).
      apply (grouped_NoDup _ _ Hg).
    + intros date. rewrite bucketOf_sorted. apply sort_Permutation.
Qed.

End Options.

(** X8.  Whatever the tokens are, once the grouping effect has run the
    picker lists exactly the dates that occur as the first eight
    characters of a token of the list, each of them once. *)
Theorem picker_lists_the_dates_of_the_tokens
  (screen : Screen) (s s' : State) :
  availableTimes s <> [] ->
  groupingEffectOf screen s = Ok s' ->
  (forall date, In date (listedDatesOf screen s')
                <-> In date (map dateOf (availableTimes s)))
  /\ NoDup (listedDatesOf screen s').
Proof.
  intros Hne E.
  destruct (groupingEffect_inv screen s s' Hne E)
    as (g & _ & Hg & Hl & Hnd & _).
  split; [|exact Hnd]. intros date. rewrite Hl.
  now apply Grouped_keys_In.
Qed.

Lemma picker_lists_the_dates_of_the_tokens_witness :
  (forall date, In date (listedDatesOf OnIndex workedGrouped)
                <-> In date (map dateOf (availableTimes workedArrived)))
  /\ NoDup (listedDatesOf OnIndex workedGrouped).
Proof.
  apply (picker_lists_the_dates_of_the_tokens OnIndex workedArrived).
  - discriminate.
  - vm_compute. reflexivity.
Defined.

(** X9.  When the list has no token twice, no bucket has a token twice:
    the time options under a date, which React keys by their token, have
    distinct keys.  Under every date the bucket holds exactly the tokens
    of the list that have that date. *)
Theorem time_options_are_distinct (screen : Screen) (s s' : State) :
  availableTimes s <> [] ->
  groupingEffectOf screen s = Ok s' ->
  (forall date t,
      In t (bucketOf (groupedTimes s') date)
      <-> In t (availableTimes s) /\ dateOf t = date)
  /\ (NoDup (availableTimes s) ->
      forall date, NoDup (bucketOf (groupedTimes s') date)).
Proof.
  intros Hne E.
  destruct (groupingEffect_inv screen s s' Hne E)
    as (g & Eg & Hg & _ & _ & Hb).
  split.
  - intros date t. split.
    + intros Hin. apply (Permutation_in _ (Hb date)) in Hin.
      rewrite (bucketOf_filter _ g date Eg Hg) in Hin.
      apply filter_In in Hin as [Hin Hd]. split; [exact Hin|].
      now apply String.eqb_eq in Hd.
    + intros [Hin Hd]. apply (Permutation_in _ (Permutation_sym (Hb date))).
      rewrite (bucketOf_filter _ g date Eg Hg). apply filter_In.
      split; [exact Hin|]. now apply String.eqb_eq.
  - intros Hnd date.
    apply (Permutation_NoDup (Permutation_sym (Hb date))).
    rewrite (bucketOf_filter _ g date Eg Hg). now apply NoDup_filter.
Qed.

Lemma time_options_are_distinct_witness :
  (forall date t,
      In t (bucketOf (groupedTimes workedGrouped) date)
      <-> In t (availableTimes workedArrived) /\ dateOf t = date)
  /\ (NoDup (availableTimes workedArrived) ->
      forall date, NoDup (bucketOf (groupedTimes workedGrouped) date)).
Proof.
  apply (time_options_are_distinct OnIndex workedArrived).
  - discriminate.
  - vm_compute. reflexivity.
Defined.

(** * From the response to the picker *)

Section Arrival.

Lemma fetchTimes_arrived screen s d front latest :
  JS.getOwn d (gridLayer (selectedLayer s)) = Some (front ++ [latest]) ->
  availableTimes (fetchTimesOf screen (Response (Some d)) s)
  = front ++ [latest]
  /\ selectedTime (fetchTimesOf screen (Response (Some d)) s) = latest.
Proof.
  intros Hd.
  pose proof (nth_error_last front latest) as L.
  pose proof (length_last_positive front latest) as P.
  destruct screen; simpl;
    [unfold Index.fetchTimes, Index.fetchTimesBody
    |unfold Part000.fetchTimes, Part000.fetchTimesBody
    |unfold Part002.fetchTimes, Part002.fetchTimesBody];
    simpl bind; rewrite Hd, P, L; split; reflexivity.
Qed.

Lemma dateKey_not_empty k : dateKey k -> String.eqb k "" = false.
Proof. intros [_ L]. destruct k; [discriminate L|reflexivity]. Qed.

Lemma atLeast_antisym_dateKey a b :
  dateKey a -> dateKey b ->
  atLeast (dateNumber a) (dateNumber b) ->
  atLeast (dateNumber b) (dateNumber a) -> a = b.
Proof.
  intros Ka Kb. rewrite (dateKey_number a Ka), (dateKey_number b Kb).
  simpl. intros H1 H2. destruct Ka as [Da La], Kb as [Db Lb].
  apply decimal_inj; try assumption; [congruence|lia].
Qed.

End Arrival.

(** X10.  On the screens that sort: when a response brings a list of valid
    tokens whose last token has the greatest date, as in a list in
    ascending order, then after [fetchTimes] and the grouping effect the
    selected date is the date of the selected time, and the selected time
    is one of the time options the picker draws. *)
Theorem latest_time_is_listed_under_selected_date
  (screen : Screen) (s : State) (d : JS.Object (list string))
  (front : list string) (latest : string) :
  screen <> OnIndex ->
  JS.getOwn d (gridLayer (selectedLayer s)) = Some (front ++ [latest]) ->
  Forall (fun t => validToken t = true) (front ++ [latest]) ->
  greatestDate (front ++ [latest]) (dateOf latest) ->
  exists s',
    groupingEffectOf screen (fetchTimesOf screen (Response (Some d)) s)
    = Ok s'
    /\ selectedTime s' = latest
    /\ selectedDate s' = Some (dateOf latest)
    /\ In latest (timeOptions s').
Proof.
  intros Hscreen Hd Hv Hgreat.
  destruct (fetchTimes_arrived screen s d front latest Hd) as [Ea Et].
  set (s1 := fetchTimesOf screen (Response (Some d)) s) in *.
  assert (Hne : availableTimes s1 <> []).
  { rewrite Ea. destruct front; discriminate. }
  rewrite <- Ea in Hv, Hgreat.
  destruct (sortingEffect_Grouped s1 (valid_not_inherited _ Hv) Hne)
    as (g & Eg & Hg & Es).
  destruct (sortedDates_head _ g Hg Hv Hne) as (dmax & Emax & Hmax).
  assert (Hlatest : In latest (availableTimes s1)).
  { rewrite Ea. apply in_or_app. right. now left. }
  assert (Edate : dmax = dateOf latest).
  { destruct Hmax as [Hin Hmax]. destruct Hgreat as [_ Hgreat].
    apply in_map_iff in Hin as (t & <- & Ht).
    rewrite Forall_forall in Hv.
    apply atLeast_antisym_dateKey.
    - now apply validToken_date, Hv.
    - now apply validToken_date, Hv.
    - now apply Hmax.
    - now apply Hgreat. }
  subst dmax.
  assert (Hopt : In latest
                    (timeOptions
                       (setSelectedDate (Some (dateOf latest))
                          (setGroupedTimes
                             (map (sortedBucket g) (sortedDates g)) s1)))).
  { unfold timeOptions. simpl.
    rewrite (dateKey_not_empty (dateOf latest)).
    - rewrite bucketOf_sorted. apply sort_In.
      destruct (grouped_mem _ _ Hg latest Hlatest) as (b & Eb & Hin).
      unfold bucketOf. now rewrite Eb.
    - rewrite Forall_forall in Hv. now apply validToken_date, Hv. }
  rewrite Emax in Es.
  exists (setSelectedDate (Some (dateOf latest))
            (setGroupedTimes (map (sortedBucket g) (sortedDates g)) s1)).
  split; [destruct screen; [congruence|exact Es|exact Es]|].
  split; [exact Et|]. split; [reflexivity|exact Hopt].
Qed.

Lemma latest_time_is_listed_under_selected_date_witness :
  exists s',
    groupingEffectOf OnPart002
      (fetchTimesOf OnPart002 workedResponse initialState)
    = Ok s'
    /\ selectedTime s' = "202401020000"
    /\ selectedDate s' = Some (dateOf "202401020000")
    /\ In "202401020000" (timeOptions s').
Proof.
  apply (latest_time_is_listed_under_selected_date OnPart002 initialState
           [("turb-grid-30-31-kft", workedExample)]
           ["202401010000"; "202401010600"] "202401020000").
  - discriminate.
  - reflexivity.
  - repeat constructor.
  - split; [vm_compute; tauto|].
    intros t [<-|[<-|[<-|[]]]]; vm_compute; discriminate.
Defined.

(** X11.  On index.tsx and part_001, for valid tokens with years from 1000
    on: after [fetchTimes] and the grouping effect the selected date is
    the least date of the list, and the selected time, the last token, is
    among the time options the picker draws exactly when its date is that
    least date. *)
Theorem index_lists_latest_time_only_under_least_date
  (s : State) (d : JS.Object (list string))
  (front : list string) (latest : string) :
  JS.getOwn d (gridLayer (selectedLayer s)) = Some (front ++ [latest]) ->
  Forall (fun t => validToken t = true) (front ++ [latest]) ->
  Forall (fun t => yearFrom1000 t = true) (front ++ [latest]) ->
  exists s' least,
    Index.groupingEffect (Index.fetchTimes (Response (Some d)) s) = Ok s'
    /\ selectedTime s' = latest
    /\ selectedDate s' = Some least
    /\ leastDate (front ++ [latest]) least
    /\ (In latest (timeOptions s') <-> dateOf latest = least).
Proof.
  intros Hd Hv Hy.
  destruct (fetchTimes_arrived OnIndex s d front latest Hd) as [Ea Et].
  simpl in Ea, Et.
  set (s1 := Index.fetchTimes (Response (Some d)) s) in *.
  assert (Hne : availableTimes s1 <> []).
  { rewrite Ea. destruct front; discriminate. }
  rewrite <- Ea in Hv, Hy |- *.
  destruct (indexEffect_Grouped s1 (valid_not_inherited _ Hv) Hne)
    as (g & Eg & Hg & Es).
  destruct (keys_head _ g Hg Hv Hy Hne) as (least & Eleast & Hleast).
  assert (Hlatest : In latest (availableTimes s1)).
  { rewrite Ea. apply in_or_app. right. now left. }
  assert (Hk : In least (map fst g)).
  { apply In_keys. now apply nth_error_0_In. }
  rewrite Eleast in Es.
  eexists. exists least. split; [exact Es|]. split; [exact Et|].
  split; [reflexivity|]. split; [exact Hleast|].
  unfold timeOptions. simpl.
  rewrite (dateKey_not_empty least (Grouped_dateKey _ g least Hg Hv Hk)).
  rewrite (Grouped_bucket_In _ g latest least Hg Hlatest Hk).
  split; congruence.
Qed.

Lemma index_lists_latest_time_only_under_least_date_witness :
  exists s' least,
    Index.groupingEffect
      (Index.fetchTimes
         (Response (Some [("turb-grid-30-31-kft", twoDays)])) initialState)
    = Ok s'
    /\ selectedTime s' = "20240102.000000"
    /\ selectedDate s' = Some least
    /\ leastDate (["20240101.000000"] ++ ["20240102.000000"]) least
    /\ (In "20240102.000000" (timeOptions s')
        <-> dateOf "20240102.000000" = least).
Proof.
  apply (index_lists_latest_time_only_under_least_date initialState
           [("turb-grid-30-31-kft", twoDays)]
           ["20240101.000000"] "20240102.000000").
  - reflexivity.
  - repeat constructor.
  - repeat constructor.
Defined.

(** X12.  The layer button handles the response to its own request as
    [fetchTimes] does when the response has a list for the product; it
    leaves the state as it is when the body or the product is missing, on
    every screen; and when the request is rejected it only writes the
    error to the console. *)
Theorem layer_button_handles_response_like_fetchTimes
  (screen : Screen) (rendered layer : LayerConfig) (s : State) :
  (forall d times,
      gridLayer layer = gridLayer (selectedLayer s) ->
      polyLayer rendered = polyLayer (selectedLayer s) ->
      JS.getOwn d (gridLayer layer) = Some times ->
      onLayerResponse screen rendered layer (Response (Some d)) s
      = fetchTimesOf screen (Response (Some d)) s)
  /\ (forall data,
         match data with
         | None => True
         | Some d => JS.getOwn d (gridLayer layer) = None
         end ->
         onLayerResponse screen rendered layer (Response data) s = s)
  /\ (forall e,
         onLayerResponse screen rendered layer (Rejected e) s
         = consoleLog
             (ConsoleError "Error fetching times for new layer:" e) s).
Proof.
  split; [|split].
  - intros d times Eg Ep Hd.
    unfold onLayerResponse, onLayerResponseBody. simpl bind. rewrite Hd.
    rewrite Eg in Hd.
    destruct screen; simpl;
      [unfold Index.fetchTimes, Index.fetchTimesBody
      |unfold Part000.fetchTimes, Part000.fetchTimesBody
      |unfold Part002.fetchTimes, Part002.fetchTimesBody];
      simpl bind; rewrite Hd;
      destruct (0 <? List.length times)%nat; try reflexivity;
      destruct (nth_error times (List.length times - 1)); try reflexivity.
    unfold requestPolygons, fetchTurbulenceData. simpl. now rewrite Ep.
  - intros data Hm. unfold onLayerResponse, onLayerResponseBody. simpl bind.
    destruct data as [d|]; [|reflexivity]. now rewrite Hm.
  - intros e. reflexivity.
Qed.

Lemma layer_button_handles_response_like_fetchTimes_witness :
  onLayerResponse OnIndex (selectedLayer initialState)
    (selectedLayer initialState) workedResponse initialState
  = fetchTimesOf OnIndex workedResponse initialState.
Proof.
  apply (proj1 (layer_button_handles_response_like_fetchTimes OnIndex
                  (selectedLayer initialState) (selectedLayer initialState)
                  initialState)
           [("turb-grid-30-31-kft", workedExample)] workedExample);
    reflexivity.
Defined.

(** * The listing of the screens that do not sort *)

Section Ascending.

Lemma StronglySorted_map {X Y : Type} (f : X -> Y) (R : Y -> Y -> Prop) l :
  StronglySorted (fun a b => R (f a) (f b)) l -> StronglySorted R (map f l).
Proof.
  induction 1 as [|x l Hs IH Hall]; simpl; constructor; [exact IH|].
  rewrite Forall_forall in *. intros y Hy.
  apply in_map_iff in Hy as (z & <- & Hz). now apply Hall.
Qed.

Lemma keys_strictly_ascending l g :
  Grouped l g -> Forall (fun t => validToken t = true) l ->
  Forall (fun t => yearFrom1000 t = true) l ->
  datesAscending (JS.keys g).
Proof.
  intros Hg Hv Hy. rewrite Forall_forall in Hy.
  assert (Hidx : forall k, In k (map fst g) ->
                           JS.arrayIndex k = Some (decimal k)).
  { intros k Hk. apply arrayIndex_dateKey.
    - now apply (Grouped_dateKey l g).
    - destruct (grouped_key _ _ Hg k Hk) as (t & Ht & <-).
      rewrite yearFrom1000_dateOf. now apply Hy. }
  destruct (keys_ascending g) as (sorted & E & Hp & Hs).
  { intros p Hp. unfold JS.isArrayIndex.
    now rewrite (Hidx (fst p) (in_map fst _ _ Hp)). }
  assert (Hin : forall k, In k (map fst sorted) -> In k (map fst g)).
  { intros k. apply Permutation_in. now apply Permutation_map. }
  unfold datesAscending, JS.keys. rewrite E.
  apply (StronglySorted_impl_In (fun a b => (decimal a < decimal b)%Z)).
  { intros a b Ha Hb Hlt.
    rewrite (dateKey_number a (Grouped_dateKey l g a Hg Hv (Hin a Ha))).
    rewrite (dateKey_number b (Grouped_dateKey l g b Hg Hv (Hin b Hb))).
    simpl. lia. }
  apply StronglySorted_strict.
  - apply (Permutation_NoDup (Permutation_sym (Permutation_map fst Hp))).
    apply (grouped_NoDup _ _ Hg).
  - intros a b Ha Hb Eab.
    destruct (Grouped_dateKey l g a Hg Hv (Hin a Ha)) as [Da La].
    destruct (Grouped_dateKey l g b Hg Hv (Hin b Hb)) as [Db Lb].
    apply decimal_inj; try assumption. congruence.
  - apply StronglySorted_map.
    eapply StronglySorted_impl_In; [|exact Hs].
    intros p q Hp' Hq' Hle. unfold JS.indexOf in Hle.
    rewrite (Hidx (fst p) (Hin _ (in_map fst _ _ Hp'))) in Hle.
    rewrite (Hidx (fst q) (Hin _ (in_map fst _ _ Hq'))) in Hle.
    exact Hle.
Qed.

End Ascending.

(** X13.  On index.tsx and part_001, for valid tokens with years from 1000
    on, the picker lists the dates in strictly ascending order, earliest
    first, whatever the order of the tokens in the list: a permutation of
    the list gives the same listing and the same selected date. *)
Theorem index_lists_dates_ascending (s1 s2 : State) :
  availableTimes s1 <> [] ->
  Forall (fun t => validToken t = true) (availableTimes s1) ->
  Forall (fun t => yearFrom1000 t = true) (availableTimes s1) ->
  Permutation (availableTimes s1) (availableTimes s2) ->
  exists s1' s2',
    Index.groupingEffect s1 = Ok s1'
    /\ Index.groupingEffect s2 = Ok s2'
    /\ datesAscending (Index.listedDates s1')
    /\ Index.listedDates s1' = Index.listedDates s2'
    /\ selectedDate s1' = selectedDate s2'
    /\ selectedDate s1' = hd_error (Index.listedDates s1').
Proof.
  intros Hne1 Hv1 Hy1 Hp.
  assert (Hv2 : Forall (fun t => validToken t = true) (availableTimes s2)).
  { rewrite Forall_forall in *. intros t Ht. apply Hv1.
    now apply (Permutation_in _ (Permutation_sym Hp)). }
  assert (Hy2 : Forall (fun t => yearFrom1000 t = true) (availableTimes s2)).
  { rewrite Forall_forall in *. intros t Ht. apply Hy1.
    now apply (Permutation_in _ (Permutation_sym Hp)). }
  assert (Hne2 : availableTimes s2 <> []).
  { intros E. rewrite E in Hp.
    apply Permutation_sym, Permutation_nil in Hp. contradiction. }
  destruct (indexEffect_Grouped s1 (valid_not_inherited _ Hv1) Hne1)
    as (g1 & _ & Hg1 & E1).
  destruct (indexEffect_Grouped s2 (valid_not_inherited _ Hv2) Hne2)
    as (g2 & _ & Hg2 & E2).
  pose proof (keys_strictly_ascending _ g1 Hg1 Hv1 Hy1) as A1.
  pose proof (keys_strictly_ascending _ g2 Hg2 Hv2 Hy2) as A2.
  assert (Ek : JS.keys g1 = JS.keys g2).
  { apply (sorted_unique
             (fun a b => above (dateNumber b) (dateNumber a))).
    - intros a b H1 H2. exact (above_asym _ _ H1 H2).
    - exact A1.
    - exact A2.
    - rewrite !keys_Permutation.
      now apply (Grouped_keys_Permutation (availableTimes s1)
                                          (availableTimes s2)). }
  eexists. eexists. split; [exact E1|]. split; [exact E2|].
  unfold Index.listedDates. simpl.
  split; [exact A1|]. split; [exact Ek|]. split; [now rewrite Ek|].
  now destruct (JS.keys g1).
Qed.

Lemma index_lists_dates_ascending_witness :
  exists s1' s2',
    Index.groupingEffect (withTimes twoDays) = Ok s1'
    /\ Index.groupingEffect (withTimes (rev twoDays)) = Ok s2'
    /\ datesAscending (Index.listedDates s1')
    /\ Index.listedDates s1' = Index.listedDates s2'
    /\ selectedDate s1' = selectedDate s2'
    /\ selectedDate s1' = hd_error (Index.listedDates s1').
Proof.
  apply (index_lists_dates_ascending
           (withTimes twoDays) (withTimes (rev twoDays))).
  - discriminate.
  - repeat constructor.
  - repeat constructor.
  - apply Permutation_rev.
Defined.
